(** * Perforce checkout: version comparator, command manager and
    workspace reconciliation

  A shallow embedding of the Perforce code path of the checkout action:
  - [PerforceVersion]     (p4-version.ts),
  - [PerforceCommandManager] (p4-command-manager.ts),
  - [getSource]           (p4-source-provider.ts),
  together with the properties of these functions.

  JavaScript strings are modelled by [string] (one character per code
  unit), JavaScript numbers by [number] below, a possibly [undefined]
  string by [option string], thrown values by [Exn], and asynchronous,
  effectful code by a state-and-exception monad [M] whose state records
  every external call that was issued. *)

From Stdlib Require Import ZArith Ascii String.
From stdpp Require Import base option list gmap strings.

Local Open Scope Z_scope.
Set Warnings "-clear-no-such-hyp".

(** ** JavaScript values *)

Module Js.

(** The numbers that occur in this program: [NaN], the integers, and
    [+Infinity] (the result of converting a very long digit string). *)
Inductive number := NaN | Num (z : Z) | Infinity.

Global Instance number_eq_dec : EqDecision number.
Proof. solve_decision. Defined.

Definition isNaN (x : number) : bool :=
  match x with NaN => true | _ => false end.

(** [x < y]: every comparison with [NaN] is false. *)
Definition lt (x y : number) : bool :=
  match x, y with
  | NaN, _ | _, NaN => false
  | Num a, Num b => a <? b
  | Num _, Infinity => true
  | Infinity, _ => false
  end.

(** [x >= y]. *)
Definition ge (x y : number) : bool :=
  match x, y with
  | NaN, _ | _, NaN => false
  | Num a, Num b => b <=? a
  | Infinity, _ => true
  | Num _, Infinity => false
  end.

(** [x === y] on numbers. *)
Definition strict_eq (x y : number) : bool :=
  match x, y with
  | Num a, Num b => a =? b
  | Infinity, Infinity => true
  | _, _ => false
  end.

(** Rounding of a non-negative integer to the nearest IEEE-754 double
    (53 significant bits, ties to even, overflow to [Infinity]). *)
Definition round_double (n : Z) : number :=
  if n <? 2 ^ 53 then Num n
  else
    let e := Z.log2 n - 52 in
    let q := Z.shiftr n e in
    let r := Z.land n (Z.ones e) in
    let half := 2 ^ (e - 1) in
    let q' := if r <? half then q
              else if half <? r then q + 1
              else if Z.even q then q else q + 1 in
    let v := q' * 2 ^ e in
    if 2 ^ 1024 <=? v then Infinity else Num v.

(** [\d]: an ASCII decimal digit. *)
Definition is_digit (c : ascii) : bool :=
  let n := nat_of_ascii c in (48 <=? n)%nat && (n <=? 57)%nat.

Definition digit_value (c : ascii) : Z := Z.of_nat (nat_of_ascii c) - 48.

(** The mathematical value of a string of decimal digits, [None] when
    another character occurs. *)
Fixpoint decimal_value_from (acc : Z) (s : string) : option Z :=
  match s with
  | "" => Some acc
  | String c s' =>
      if is_digit c then decimal_value_from (10 * acc + digit_value c) s'
      else None
  end.

Definition decimal_value (s : string) : option Z := decimal_value_from 0 s.

(** [Number(v)] for the arguments this program passes: [undefined] or a
    captured group of decimal digits. *)
Definition Number (v : option string) : number :=
  match v with
  | None => NaN
  | Some s =>
      match decimal_value s with
      | Some n => round_double n
      | None => NaN
      end
  end.

(** [`${v}`] for a possibly undefined string. *)
Definition show (v : option string) : string :=
  match v with Some s => s | None => "undefined" end.

(** Truthiness of a possibly undefined string. *)
Definition truthy (v : option string) : bool :=
  match v with Some (String _ _) => true | _ => false end.

(** [s.startsWith(p)]; [strip_prefix] also gives what follows [p]. *)
Fixpoint strip_prefix (p s : string) : option string :=
  match p, s with
  | "", _ => Some s
  | String a p', String b s' =>
      if decide (a = b) then strip_prefix p' s' else None
  | String _ _, "" => None
  end.

Definition startsWith (s p : string) : bool :=
  match strip_prefix p s with Some _ => true | None => false end.

(** [s.split(sep)] for a separator [sep] of one character. *)
Fixpoint split (sep : ascii) (s : string) : list string :=
  match s with
  | "" => [""]
  | String c s' =>
      if decide (c = sep) then "" :: split sep s'
      else
        match split sep s' with
        | part :: parts => String c part :: parts
        | [] => [String c ""]
        end
  end.

(** [lines.join(sep)]. *)
Fixpoint join (sep : string) (parts : list string) : string :=
  match parts with
  | [] => ""
  | [p] => p
  | p :: ps => p +:+ sep +:+ join sep ps
  end.

(** The first occurrence of [pat] in [s]: the text before and after it. *)
Fixpoint find (pat s : string) : option (string * string) :=
  match strip_prefix pat s with
  | Some rest => Some ("", rest)
  | None =>
      match s with
      | "" => None
      | String c s' =>
          match find pat s' with
          | Some (before, after) => Some (String c before, after)
          | None => None
          end
      end
  end.

(** [GetSubstitution] for a string pattern (no capture groups): in the
    replacement text "$$" stands for "$", "$&" for the matched text, "$`"
    for the text before the match and "$'" for the text after it; every
    other character, and every other use of "$", stands for itself. *)
Fixpoint GetSubstitution (matched before after repl : string) : string :=
  match repl with
  | "" => ""
  | String "$" (String "$" r) =>
      String "$" (GetSubstitution matched before after r)
  | String "$" (String "&" r) =>
      matched +:+ GetSubstitution matched before after r
  | String "$" (String "`" r) =>
      before +:+ GetSubstitution matched before after r
  | String "$" (String "'" r) =>
      after +:+ GetSubstitution matched before after r
  | String c r => String c (GetSubstitution matched before after r)
  end.

(** [s.replace(pat, repl)] with a string pattern: only the first
    occurrence is replaced. *)
Definition replace (s pat repl : string) : string :=
  match find pat s with
  | Some (before, after) =>
      before +:+ GetSubstitution pat before after repl +:+ after
  | None => s
  end.

(** The maximal prefix of characters satisfying [p], and the rest. *)
Fixpoint span (p : ascii → bool) (s : string) : string * string :=
  match s with
  | "" => ("", "")
  | String c s' =>
      if p c then let '(run, rest) := span p s' in (String c run, rest)
      else ("", s)
  end.

Fixpoint all (p : ascii → bool) (s : string) : bool :=
  match s with
  | "" => true
  | String c s' => p c && all p s'
  end.

(** What a [throw] (or a rejected promise) carries: an [Error] object with
    its message, a bare string, the [TypeError] of a method call on
    [undefined], the [SyntaxError] of [JSON.parse], the rejection of
    [exec.exec] on a non-zero exit code, and a failed file-system call. *)
Inductive Exn :=
| Error (message : string)
| Thrown (value : string)
| TypeError
| SyntaxError
| ExecError (exitCode : Z)
| IoError.

Global Instance Exn_eq_dec : EqDecision Exn.
Proof. solve_decision. Defined.

End Js.

(** ** p4-version.ts *)

Module PerforceVersion.
Import Js.

(** [major] and [minor] are [NaN] until the constructor sets them. *)
Record t := { major : number; minor : number }.

Definition unset : t := {| major := NaN; minor := NaN |}.

(** [version.match(/^(\d+)\.(\d+)?$/)]: the two captured groups, the
    second one [undefined] when it did not take part in the match.
    A greedy [\d+] can be followed only by a character that is not a
    digit (here "." and the end of input), so the match, when there is
    one, takes the maximal run of digits and there is nothing to
    backtrack to. *)
Definition match_version (version : string) : option (string * option string) :=
  let '(m1, rest) := span is_digit version in
  match m1, rest with
  | String _ _, String "." rest' =>
      let '(m2, rest'') := span is_digit rest' in
      match rest'' with
      | "" => Some (m1, match m2 with "" => None | _ => Some m2 end)
      | _ => None
      end
  | _, _ => None
  end.

(** [constructor(version?: string)] *)
Definition new (version : option string) : t :=
  if truthy version then
    match match_version (default "" version) with
    | Some (m1, m2) =>
        {| major := Number (Some m1); minor := Number m2 |}
    | None => unset
    end
  else unset.

(** [isValid()] *)
Definition isValid (v : t) : bool := negb (isNaN (major v)).

(** [checkMinimum(minimum)] *)
Definition checkMinimum (this minimum : t) : Exn + bool :=
  if negb (isValid minimum) then
    inl (Error "Arg minimum is not a valid version")
  else if lt (major this) (major minimum) then
    (* Major is insufficient *)
    inr false
  else if strict_eq (major this) (major minimum)
          && lt (minor this) (minor minimum) then
    (* Major is equal, minor is insufficient *)
    inr false
  else inr true.

End PerforceVersion.

(** ** The effects of the action

    Every call that leaves the process is recorded, in the order in which
    it is issued: the file-system calls of [@actions/io], the runs of the
    [p4.exe] binary through [exec.exec] (arguments and piped input) and
    [core.setOutput]. Logging ([core.info], [core.debug], [core.warning],
    [console.log], groups) has no effect on the control flow and is left
    out. *)

Module Effects.
Import Js.

Inductive Event :=
| RmRF (path : string)
| MkdirP (path : string)
| Exec (args : list string) (input : string)
| SetOutput (name value : string).

Global Instance Event_eq_dec : EqDecision Event.
Proof. solve_decision. Defined.

(** What the file system holds at [settings.repositoryPath], the only
    path this code touches. *)
Inductive PathKind := Missing | File | Directory.

(** The surroundings of a run: the machine's host name, the behaviour of
    the [p4.exe] binary (exit code and standard output, which may depend
    on everything that happened before, on the environment overrides, the
    arguments and the piped input), [JSON.parse] on the tagged output
    ([None]: a [SyntaxError]; otherwise the flat record of string values,
    in the order of [Object.keys]), and whether a file-system call
    fails. *)
Record Env := {
  hostname : string;
  p4_exe : list Event → gmap string string → list string → string → Z * string;
  JSON_parse : string → option (list (string * string));
  io_fails : list Event → bool
}.

Record State := {
  fs : PathKind;
  p4Env : gmap string string;
  trace : list Event
}.

(** A computation either throws or returns, and leaves a state. *)
Definition M (A : Type) : Type := State → (Exn + A) * State.

Global Instance M_ret : MRet M := λ A a s, (inr a, s).

Global Instance M_bind : MBind M := λ A B k m s,
  match m s with
  | (inr a, s') => k a s'
  | (inl e, s') => (inl e, s')
  end.

Definition throw {A} (e : Exn) : M A := λ s, (inl e, s).

(** [try { body } catch { handler }] *)
Definition try_catch {A} (body : M A) (handler : M A) : M A := λ s,
  match body s with
  | (inl _, s') => handler s'
  | r => r
  end.

(** [if (condition) { body }] *)
Definition when (condition : bool) (body : M unit) : M unit :=
  if condition then body else mret ().

Definition record (e : Event) (s : State) : State :=
  {| fs := fs s; p4Env := p4Env s; trace := trace s ++ [e] |}.

Definition set_fs (k : PathKind) (s : State) : State :=
  {| fs := k; p4Env := p4Env s; trace := trace s |}.

(** Modelled from the spec: [fileExistsSync] of fs-helper.ts, which is not
    among the sources; the target root path "is occupied by a
    non-directory file". *)
Definition fileExistsSync (path : string) : M bool := λ s,
  (inr (match fs s with File => true | _ => false end), s).

(** Modelled from the spec: [directoryExistsSync] of fs-helper.ts, which
    is not among the sources; the target root path "exists as a
    directory". With [required] a missing directory is an error. *)
Definition directoryExistsSync (path : string) (required : bool) : M bool := λ s,
  match fs s with
  | Directory => (inr true, s)
  | _ =>
      if required
      then (inl (Error ("Directory '" +:+ path +:+ "' does not exist")), s)
      else (inr false, s)
  end.

Section WithEnv.
Context (env : Env).

(** [io.rmRF(path)] *)
Definition rmRF (path : string) : M unit := λ s,
  if io_fails env (trace s) then (inl IoError, record (RmRF path) s)
  else (inr (), set_fs Missing (record (RmRF path) s)).

(** [io.mkdirP(path)] *)
Definition mkdirP (path : string) : M unit := λ s,
  if io_fails env (trace s) then (inl IoError, record (MkdirP path) s)
  else (inr (), set_fs Directory (record (MkdirP path) s)).

End WithEnv.

(** [core.setOutput(name, value)] *)
Definition setOutput (name value : string) : M unit := λ s,
  (inr (), record (SetOutput name value) s).

End Effects.

(** ** p4-command-manager.ts *)

Module PerforceCommandManager.
Import Js Effects.

Definition tab : string := String (ascii_of_nat 9) "".
Definition newline : string := String (ascii_of_nat 10) "".

Record PerforceOutput := { stdout : string; exitCode : Z }.

Record PerforceMapping := { depot : string; client_path : string }.

(** [PerforceClient]; a field is [None] when the record read from the
    server has no such key (the property is then [undefined]). The
    source's field [client] is [client_name] here and the [client] of a
    mapping is [client_path], since [client] is also a method. *)
Record PerforceClient := {
  host : option string;
  client_name : option string;
  description : option string;
  options : option string;
  submitOptions : option string;
  lineEnd : option string;
  owner : option string;
  root : option string;
  view : list PerforceMapping
}.

Global Instance PerforceMapping_eq_dec : EqDecision PerforceMapping.
Proof. solve_decision. Defined.

Global Instance PerforceClient_eq_dec : EqDecision PerforceClient.
Proof. solve_decision. Defined.

(** The object itself: [p4Env] lives in the state, since it is mutated. *)
Record t := {
  workingDirectory : string;
  perforceVersion : PerforceVersion.t
}.

(** [\w] *)
Definition is_word (c : ascii) : bool :=
  let n := nat_of_ascii c in
  ((48 <=? n) && (n <=? 57) || (65 <=? n) && (n <=? 90)
   || (97 <=? n) && (n <=? 122) || (n =? 95))%nat.

(** What [.] does not match: a line terminator. *)
Definition is_line_terminator (c : ascii) : bool :=
  let n := nat_of_ascii c in ((n =? 10) || (n =? 13))%nat.

(** A non-empty maximal run of characters satisfying [p]. *)
Definition run1 (p : ascii → bool) (s : string) : option (string * string) :=
  match span p s with
  | (String c r, rest) => Some (String c r, rest)
  | _ => None
  end.

(** [/Rev. P4\/\w+\/(\d+\.\d+)\/\d+ /] tried at the start of [s]: the
    captured group. Each [+] is followed in the pattern by a literal
    character outside its class ("/" after [\w+], "." , "/" and " " after
    the three [\d+]), so only the maximal run can be continued and greedy
    matching needs no backtracking. *)
Definition match_rev_here (s : string) : option string :=
  r ← strip_prefix "Rev" s;
  match r with
  | String c r =>
      if is_line_terminator c then None
      else
        r ← strip_prefix " P4/" r;
        '(_, r) ← run1 is_word r;
        r ← strip_prefix "/" r;
        '(d1, r) ← run1 is_digit r;
        r ← strip_prefix "." r;
        '(d2, r) ← run1 is_digit r;
        r ← strip_prefix "/" r;
        '(_, r) ← run1 is_digit r;
        _ ← strip_prefix " " r;
        Some (d1 +:+ "." +:+ d2)
  | "" => None
  end.

(** [stdout.match(...)]: the leftmost position where the pattern matches. *)
Fixpoint match_rev (s : string) : option string :=
  match match_rev_here s with
  | Some v => Some v
  | None =>
      match s with
      | "" => None
      | String _ s' => match_rev s'
      end
  end.

(** [client[key]] *)
Fixpoint property (key : string) (obj : list (string * string)) : option string :=
  match obj with
  | [] => None
  | (k, v) :: rest => if decide (k = key) then Some v else property key rest
  end.

(** The loop of [client(name)] over [Object.keys(client)]: every value
    whose key starts with "View" is split at its spaces; the first one
    that does not give exactly two parts is thrown. *)
Fixpoint viewMappings (obj : list (string * string)) : Exn + list PerforceMapping :=
  match obj with
  | [] => inr []
  | (key, view) :: rest =>
      if startsWith key "View" then
        match split " " view with
        | [part0; part1] =>
            match viewMappings rest with
            | inr mappings =>
                inr ({| depot := part0; client_path := part1 |} :: mappings)
            | inl e => inl e
            end
        | _ => inl (Error ("Invalid client view '" +:+ view +:+ "'"))
        end
      else viewMappings rest
  end.

(** The lines that [editClient] pipes into [p4 client -i]; splitting an
    undefined description is a [TypeError]. *)
Definition clientSpec (client : PerforceClient) : Exn + list string :=
  match description client with
  | None => inl TypeError
  | Some text =>
      inr ([ "Client:" +:+ tab +:+ show (client_name client);
             "Owner:" +:+ tab +:+ show (owner client);
             "Host:" +:+ tab +:+ show (host client);
             "Description:" ]
           ++ ((λ line, tab +:+ line) <$> split (ascii_of_nat 10) text)
           ++ [ "Root:" +:+ tab +:+ show (root client);
                "Options:" +:+ tab +:+ show (options client);
                "SubmitOptions:" +:+ tab +:+ show (submitOptions client);
                "LineEnd:" +:+ tab +:+ show (lineEnd client);
                "View:" ]
           ++ ((λ mapping, tab +:+ depot mapping +:+ " " +:+ client_path mapping)
                 <$> view client))
  end.

Section WithEnv.
Context (env : Env).

(** [exec.exec('p4.exe', args, options)]: the run is recorded; a non-zero
    exit code rejects. *)
Definition exec (args : list string) (input : string) : M PerforceOutput := λ s,
  let '(code, out) := p4_exe env (trace s) (p4Env s) args input in
  if decide (code = 0)
  then (inr {| stdout := out; exitCode := code |}, record (Exec args input) s)
  else (inl (ExecError code), record (Exec args input) s).

(** [execP4(args, input)]: the working directory must exist, then the
    command is run. *)
Definition execP4 (this : t) (args : list string) (input : string) : M PerforceOutput :=
  directoryExistsSync (workingDirectory this) true;;
  exec args input.

(** [initializeCommandManager(workingDirectory)], reached through
    [createCommandManager]. *)
Definition createCommandManager (workingDirectory : string) : M t :=
  let result := {| workingDirectory := workingDirectory;
                   perforceVersion := PerforceVersion.new None |} in
  p4Output ← execP4 result ["-V"] "";
  let perforceVersion :=
    match match_rev (stdout p4Output) with
    | Some group1 => PerforceVersion.new (Some group1)
    | None => PerforceVersion.new None
    end in
  if negb (PerforceVersion.isValid perforceVersion)
  then throw (Error "Unable to determine p4 version")
  else mret {| workingDirectory := workingDirectory;
               perforceVersion := perforceVersion |}.

Definition verifyLogin (this : t) : M unit :=
  execP4 this ["login"; "-s"] "";; mret ().

Definition client (this : t) (name : string) : M PerforceClient :=
  output ← execP4 this ["-Mj"; "-Ztag"; "client"; "-o"; name] "";
  match JSON_parse env (stdout output) with
  | None => throw SyntaxError
  | Some obj =>
      match viewMappings obj with
      | inl e => throw e
      | inr mappings =>
          mret {| host := property "Host" obj;
                  client_name := property "Client" obj;
                  description := property "Description" obj;
                  options := property "Options" obj;
                  submitOptions := property "SubmitOptions" obj;
                  lineEnd := property "LineEnd" obj;
                  owner := property "Owner" obj;
                  root := property "Root" obj;
                  view := mappings |}
      end
  end.

Definition editClient (this : t) (client : PerforceClient) : M unit :=
  match clientSpec client with
  | inl e => throw e
  | inr spec => execP4 this ["client"; "-i"] (join newline spec);; mret ()
  end.

Definition clientExists (this : t) (name : string) : M bool :=
  output ← execP4 this ["clients"; "-e"; name] "";
  mret (match stdout output with "" => false | _ => true end).

Definition sync (this : t) (spec : string) : M unit :=
  execP4 this ["sync"; spec] "";; mret ().

Definition syncK (this : t) (spec : string) : M unit :=
  execP4 this ["sync"; "-k"; spec] "";; mret ().

Definition revert (this : t) (spec : string) : M unit :=
  execP4 this ["clean"; "-a"; "-d"; "-e"; spec] "";; mret ().

Definition setEnvironmentVariable (name value : string) : M unit := λ s,
  (inr (), {| fs := fs s; p4Env := <[name := value]> (p4Env s); trace := trace s |}).

Definition version (this : t) : M PerforceVersion.t := mret (perforceVersion this).

End WithEnv.
End PerforceCommandManager.

(** ** p4-source-provider.ts *)

Module SourceProvider.
Import Js Effects PerforceCommandManager.

(** The fields of [IPerforceSourceSettings] that [getSource] reads. *)
Record Settings := {
  repositoryName : string;
  repositoryPath : string;
  ref : string;
  authToken : string;
  clientTemplate : string;
  useClientTemplate : bool
}.

(** [mapping.client.replace(`//${settings.clientTemplate}/`, `//${clientName}/`)] *)
Definition substitute (settings : Settings) (clientName : string)
    (mapping : PerforceMapping) : string :=
  replace (client_path mapping)
          ("//" +:+ clientTemplate settings +:+ "/")
          ("//" +:+ clientName +:+ "/").

(** The view pushed, mapping by mapping, into the client that is written
    (lines 96-102 and 114-120). *)
Definition substitutedView (settings : Settings) (clientName : string)
    (template : PerforceClient) : list PerforceMapping :=
  (λ mapping, {| depot := depot mapping;
                 client_path := substitute settings clientName mapping |})
    <$> view template.

(** [templateMappings], the [Map] filled at lines 59-62. *)
Definition templateMappings (settings : Settings) (clientName : string)
    (template : PerforceClient) : gmap string string :=
  foldl (λ map mapping,
           <[depot mapping := substitute settings clientName mapping]> map)
        ∅ (view template).

(** One turn of the loop over [existingClient.view] (lines 63-73), on the
    pair of [rebuildClient] and [templateMappings]. *)
Definition checkMapping (acc : bool * gmap string string)
    (mapping : PerforceMapping) : bool * gmap string string :=
  let '(rebuildClient, map) := acc in
  (match map !! depot mapping with
   | None => true
   | Some expected =>
       if decide (expected ≠ client_path mapping) then true else rebuildClient
   end,
   delete (depot mapping) map).

Section WithEnv.
Context (env : Env).

(** Line 48. *)
Definition clientName (settings : Settings) : string :=
  if useClientTemplate settings then clientTemplate settings
  else clientTemplate settings +:+ "_" +:+ replace (hostname env) "-" "_".

(** The value of [rebuildClient] at line 91. *)
Definition rebuildClient (settings : Settings)
    (template existingClient : PerforceClient) : bool :=
  (* check the mappings match *)
  let '(rebuildClient, remaining) :=
    foldl checkMapping
          (false, templateMappings settings (clientName settings) template)
          (view existingClient) in
  (* every mapping left in the map is missing from the client *)
  let rebuildClient :=
    if decide (remaining = ∅) then rebuildClient else true in
  (* ensure the host matches *)
  let rebuildClient :=
    if decide (host existingClient ≠ Some (hostname env)) then true
    else rebuildClient in
  (* ensure root matches *)
  let rebuildClient :=
    if decide (root existingClient ≠ Some (repositoryPath settings)) then true
    else rebuildClient in
  rebuildClient.

(** [existingClient] after lines 94-102. *)
Definition rebuiltClient (settings : Settings)
    (template existingClient : PerforceClient) : PerforceClient :=
  {| host := Some (hostname env);
     client_name := client_name existingClient;
     description := description existingClient;
     options := options existingClient;
     submitOptions := submitOptions existingClient;
     lineEnd := lineEnd existingClient;
     owner := owner existingClient;
     root := Some (repositoryPath settings);
     view := substitutedView settings (clientName settings) template |}.

(** [newClient] after lines 110-120. *)
Definition createdClient (settings : Settings)
    (template newClient : PerforceClient) : PerforceClient :=
  {| host := Some (hostname env);
     client_name := Some (clientName settings);
     description := Some ("Build template instance for " +:+ hostname env);
     options := options newClient;
     submitOptions := submitOptions newClient;
     lineEnd := lineEnd newClient;
     owner := owner newClient;
     root := Some (repositoryPath settings);
     view := substitutedView settings (clientName settings) template |}.

Definition getPerforceCommandManager (settings : Settings) : M PerforceCommandManager.t :=
  createCommandManager env (repositoryPath settings).

(** Lines 15-23: the target root is made a directory. *)
Definition prepareDirectory (settings : Settings) : M unit :=
  (* remove conflicting file path (file not directory) *)
  isFile ← fileExistsSync (repositoryPath settings);
  when isFile (rmRF env (repositoryPath settings));;
  (* create directory *)
  isDirectory ← directoryExistsSync (repositoryPath settings) false;
  when (negb isDirectory) (mkdirP env (repositoryPath settings)).

(** Lines 31-45: the session variables are set, the login is verified and
    the template workspace is read. *)
Definition openSession (settings : Settings) (p4 : PerforceCommandManager.t)
    : M PerforceClient :=
  let p4User := authToken settings in
  setEnvironmentVariable "P4PORT" (repositoryName settings);;
  setEnvironmentVariable "P4USER" p4User;;
  try_catch (verifyLogin env p4)
    (throw (Thrown "Workflow must login to perforce before running checkout"));;
  client env p4 (clientTemplate settings).

(** Lines 52-106: the branch taken when the client exists, once it has
    been read. The result is [needSyncNone]. *)
Definition reconcile (settings : Settings) (p4 : PerforceCommandManager.t)
    (template existingClient : PerforceClient) : M bool :=
  let p4User := authToken settings in
  if truthy (owner existingClient)
     && bool_decide (owner existingClient ≠ Some p4User)
  then
    throw (Error ("Client owner does not match, aborting. "
                  +:+ show (owner existingClient) +:+ " != " +:+ p4User))
  else if rebuildClient settings template existingClient then
    editClient env p4 (rebuiltClient settings template existingClient);;
    mret true
  else mret false.

(** Lines 109-123: the branch taken when there is no such client. *)
Definition create (settings : Settings) (p4 : PerforceCommandManager.t)
    (template : PerforceClient) : M bool :=
  newClient ← client env p4 (clientTemplate settings);
  editClient env p4 (createdClient settings template newClient);;
  mret false.

(** Lines 47-125, "Setting up client workspace". *)
Definition setUpClientWorkspace (settings : Settings)
    (p4 : PerforceCommandManager.t) (template : PerforceClient) : M bool :=
  clientExists env p4 (clientName settings) ≫= λ found : bool,
    if found then
      existingClient ← client env p4 (clientName settings);
      reconcile settings p4 template existingClient
    else create settings p4 template.

(** Lines 129-139, "Purging client workspace to #none". *)
Definition purge (settings : Settings) (p4 : PerforceCommandManager.t) : M unit :=
  syncK env p4 ("//" +:+ clientName settings +:+ "/...#none");;
  (* re-create the checkout directory *)
  rmRF env (repositoryPath settings);;
  mkdirP env (repositoryPath settings).

(** Lines 127-151. *)
Definition checkOut (settings : Settings) (p4 : PerforceCommandManager.t)
    (needSyncNone : bool) : M unit :=
  setEnvironmentVariable "P4CLIENT" (clientName settings);;
  when needSyncNone (purge settings p4);;
  revert env p4 ("//" +:+ clientName settings +:+ "/...");;
  sync env p4 ("//" +:+ clientName settings +:+ "/..." +:+ ref settings);;
  setOutput "commit" (ref settings).

(** [getSource(settings)] *)
Definition getSource (settings : Settings) : M unit :=
  prepareDirectory settings;;
  p4 ← getPerforceCommandManager settings;
  template ← openSession settings p4;
  needSyncNone ← setUpClientWorkspace settings p4 template;
  checkOut settings p4 needSyncNone.

(** [getSource] up to the point where "Setting up client workspace"
    branches (lines 15-51): it returns the command manager, the template,
    and the existing client when there is one. *)
Definition reachClient (settings : Settings)
    : M (PerforceCommandManager.t * PerforceClient * option PerforceClient) :=
  prepareDirectory settings;;
  p4 ← getPerforceCommandManager settings;
  template ← openSession settings p4;
  clientExists env p4 (clientName settings) ≫= λ found : bool,
    if found then
      existingClient ← client env p4 (clientName settings);
      mret (p4, template, Some existingClient)
    else mret (p4, template, None).

End WithEnv.
End SourceProvider.

(** ** The vocabulary of the properties *)

Module Spec.
Import Js Effects PerforceCommandManager SourceProvider.

(** A number that is not negative. *)
Definition nonneg (x : number) : Prop :=
  match x with Num z => 0 ≤ z | _ => True end.

(** [steps es Q m]: whatever the state, [m] records a prefix of [es];
    when it returns it has recorded all of [es] and its result satisfies
    [Q]. *)
Definition steps {A} (es : list Event) (Q : A → Prop) (m : M A) : Prop :=
  ∀ s, ∃ t, trace (m s).2 = trace s ++ t
            ∧ t `prefix_of` es
            ∧ (∀ a, (m s).1 = inr a → t = es ∧ Q a).

(** [emits P m]: every event [m] records satisfies [P]. *)
Definition emits {A} (P : Event → Prop) (m : M A) : Prop :=
  ∀ s, ∃ t, trace (m s).2 = trace s ++ t ∧ Forall P t.

(** [needle] occurs in [text]. *)
Definition contains (text needle : string) : Prop :=
  ∃ before after, text = before +:+ needle +:+ after.

(** The number of space characters of a line. *)
Fixpoint spaces (line : string) : nat :=
  match line with
  | "" => 0
  | String c rest => if decide (c = " "%char) then S (spaces rest) else spaces rest
  end%nat.

(** The view lines of a record read from the server: the values of the
    keys that start with "View", in order. *)
Definition viewLines (obj : list (string * string)) : list string :=
  snd <$> filter (λ entry, startsWith entry.1 "View" = true) obj.

(** In the words of the specification, "whitespace-separated tokens": the
    pieces of a line between its whitespace characters (space, tab, line
    feed, vertical tab, form feed, carriage return). *)
Fixpoint ws_split (line : string) : list string :=
  match line with
  | "" => [""]
  | String c rest =>
      if Ascii.is_space c then "" :: ws_split rest
      else
        match ws_split rest with
        | piece :: pieces => String c piece :: pieces
        | [] => [String c ""]
        end
  end.

(** The pieces that are not empty: the tokens when a run of whitespace
    counts as one separator. *)
Definition ws_tokens (line : string) : list string :=
  filter (λ piece, piece ≠ "") (ws_split line).

(** In the words of the specification, the "namespace-normalized"
    template: each depot path of the template with its client path moved
    to the namespace of the resolved client name. *)
Definition normalized (env : Env) (settings : Settings)
    (template : PerforceClient) : list (string * string) :=
  (λ mapping, (depot mapping, substitute settings (clientName env settings) mapping))
    <$> view template.

(** A depot path of the existing client that the template does not have. *)
Definition extraMapping (env : Env) (settings : Settings)
    (template existing : PerforceClient) : Prop :=
  Exists (λ mapping, depot mapping ∉ (normalized env settings template).*1)
         (view existing).

(** A depot path that both have, with a different client path. *)
Definition mismatchedMapping (env : Env) (settings : Settings)
    (template existing : PerforceClient) : Prop :=
  Exists (λ mapping,
            Exists (λ expected, expected.1 = depot mapping
                                ∧ expected.2 ≠ client_path mapping)
                   (normalized env settings template))
         (view existing).

(** A depot path of the template that the existing client does not have. *)
Definition missingMapping (env : Env) (settings : Settings)
    (template existing : PerforceClient) : Prop :=
  Exists (λ expected, expected.1 ∉ depot <$> view existing)
         (normalized env settings template).

(** The five drift conditions. *)
Definition drift (env : Env) (settings : Settings)
    (template existing : PerforceClient) : Prop :=
  extraMapping env settings template existing
  ∨ mismatchedMapping env settings template existing
  ∨ missingMapping env settings template existing
  ∨ host existing ≠ Some (hostname env)
  ∨ root existing ≠ Some (repositoryPath settings).

Global Instance drift_dec env settings template existing :
  Decision (drift env settings template existing).
Proof.
  unfold drift, extraMapping, mismatchedMapping, missingMapping. apply _.
Defined.

(** In the words of the specification, the host name with its hyphens
    collapsed: every hyphen becomes an underscore. *)
Fixpoint collapseHyphens (host : string) : string :=
  match host with
  | "" => ""
  | String c rest =>
      String (if decide (c = "-"%char) then "_"%char else c) (collapseHyphens rest)
  end.

(** The number of hyphens of a host name. *)
Fixpoint hyphens (host : string) : nat :=
  match host with
  | "" => 0
  | String c rest => if decide (c = "-"%char) then S (hyphens rest) else hyphens rest
  end%nat.

(** The data-model invariant: within one workspace definition the depot
    paths are unique keys. *)
Definition uniqueDepots (client : PerforceClient) : Prop :=
  NoDup (depot <$> view client).

Global Instance uniqueDepots_dec client : Decision (uniqueDepots client).
Proof. unfold uniqueDepots. apply _. Defined.

(** The client path the template gives for a depot path: the substituted
    client path of its last mapping of that depot path. *)
Definition expectedPath (env : Env) (settings : Settings)
    (template : PerforceClient) (d c : string) : Prop :=
  ∃ before after,
    normalized env settings template = before ++ (d, c) :: after
    ∧ d ∉ after.*1.

(** A depot path of the existing client whose client path is not the one
    the template gives for it. *)
Definition mismatchedLastMapping (env : Env) (settings : Settings)
    (template existing : PerforceClient) : Prop :=
  Exists (λ mapping,
            ∃ c, expectedPath env settings template (depot mapping) c
                 ∧ c ≠ client_path mapping)
         (view existing).

(** The conditions under which the code rebuilds: the five drift
    conditions, with a repeated depot path of the template counted by its
    last mapping, and a depot path repeated in the existing view. *)
Definition rebuildCondition (env : Env) (settings : Settings)
    (template existing : PerforceClient) : Prop :=
  extraMapping env settings template existing
  ∨ mismatchedLastMapping env settings template existing
  ∨ ¬ uniqueDepots existing
  ∨ missingMapping env settings template existing
  ∨ host existing ≠ Some (hostname env)
  ∨ root existing ≠ Some (repositoryPath settings).

(** The calls that change something on the server or in the workspace:
    writing a client definition, syncing (also to "#none") and cleaning. *)
Definition is_write (e : Event) : bool :=
  match e with
  | Exec ("client" :: "-i" :: _) _ => true
  | Exec ("sync" :: _) _ => true
  | Exec ("clean" :: _) _ => true
  | _ => false
  end.

(** The calls that write a client definition to the server. *)
Definition writes_definition (e : Event) : bool :=
  match e with
  | Exec ("client" :: "-i" :: _) _ => true
  | _ => false
  end.

(** The outputs of the action. *)
Definition is_output (e : Event) : bool :=
  match e with SetOutput _ _ => true | _ => false end.

(** What the preparation of the target root does, by what it finds. *)
Definition prepareEvents (found : PathKind) (path : string) : list Event :=
  match found with
  | File => [RmRF path; MkdirP path]
  | Missing => [MkdirP path]
  | Directory => []
  end.

(** What writing a client definition records: the piped specification,
    when there is one to pipe. *)
Definition writeEvents (definition : PerforceClient) : list Event :=
  match clientSpec definition with
  | inr lines => [Exec ["client"; "-i"] (join newline lines)]
  | inl _ => []
  end.

(** The purge: the remote sync to "#none", then the wipe of the root. *)
Definition purgeEvents (env : Env) (settings : Settings) : list Event :=
  [ Exec ["sync"; "-k"; "//" +:+ clientName env settings +:+ "/...#none"] "";
    RmRF (repositoryPath settings);
    MkdirP (repositoryPath settings) ].

(** The end of every run: clean, sync to the ref, output. *)
Definition checkoutEvents (env : Env) (settings : Settings) : list Event :=
  [ Exec ["clean"; "-a"; "-d"; "-e"; "//" +:+ clientName env settings +:+ "/..."] "";
    Exec ["sync"; "//" +:+ clientName env settings +:+ "/..." +:+ ref settings] "";
    SetOutput "commit" (ref settings) ].

(** The reads a run makes before it looks for the machine's client. *)
Definition sessionEvents (settings : Settings) : list Event :=
  [ Exec ["-V"] "";
    Exec ["login"; "-s"] "";
    Exec ["-Mj"; "-Ztag"; "client"; "-o"; clientTemplate settings] "" ].

End Spec.

(** ** Sample runs

    A build machine named "runner-1", a template workspace "T" with two
    mappings, and a server whose answers are fixed in advance. The sample
    server prints the name of a record, which the sample [JSON.parse]
    turns into the record itself. *)

Module Samples.
Import Js Effects PerforceCommandManager SourceProvider.

Definition settings : Settings :=
  {| repositoryName := "ssl:perforce:1666";
     repositoryPath := "/work/repo";
     ref := "@12345";
     authToken := "bob";
     clientTemplate := "T";
     useClientTemplate := false |}.

Definition templateRecord : list (string * string) :=
  [ ("Client", "T"); ("Owner", "admin"); ("Description", "Build template");
    ("Root", "/nowhere"); ("Options", "noallwrite clobber");
    ("SubmitOptions", "submitunchanged"); ("LineEnd", "local");
    ("View0", "//depot/a/... //T/a/..."); ("View1", "//depot/b/... //T/b/...") ].

(** A machine client as this action leaves it. *)
Definition machineRecord (owner : string) (views : list (string * string))
    : list (string * string) :=
  [ ("Client", "T_runner_1"); ("Owner", owner); ("Host", "runner-1");
    ("Description", "Build template instance for runner-1");
    ("Root", "/work/repo"); ("Options", "noallwrite clobber");
    ("SubmitOptions", "submitunchanged"); ("LineEnd", "local") ] ++ views.

Definition sameViews : list (string * string) :=
  [ ("View0", "//depot/a/... //T_runner_1/a/...");
    ("View1", "//depot/b/... //T_runner_1/b/...") ].

Definition extraViews : list (string * string) :=
  sameViews ++ [ ("View2", "//depot/c/... //T_runner_1/c/...") ].

Definition versionBanner (version : string) : string :=
  "Perforce - The Fast Software Configuration Management System."
  +:+ newline +:+ "Rev. P4/NTX64/" +:+ version +:+ "/2519561 (2023/11/15)."
  +:+ newline.

(** The sample server on the machine [machine]: it reports [version],
    knows the template, and knows the machine client when [existing] is
    given. *)
Definition serverOn (machine version : string)
    (existing : option (list (string * string))) : Env :=
  {| hostname := machine;
     p4_exe := λ _ _ args _,
       match args with
       | ["-V"] => (0, versionBanner version)
       | ["login"; "-s"] => (0, "User bob ticket expires in 11 hours.")
       | ["-Mj"; "-Ztag"; "client"; "-o"; name] => (0, name)
       | ["clients"; "-e"; _] =>
           (0, match existing with Some _ => "Client T_runner_1" | None => "" end)
       | _ => (0, "")
       end;
     JSON_parse := λ text,
       if decide (text = "T") then Some templateRecord
       else if decide (text = "T_runner_1") then existing
       else None;
     io_fails := λ _, false |}.

Definition sampleEnv (version : string)
    (existing : option (list (string * string))) : Env :=
  serverOn "runner-1" version existing.

(** A run starts with nothing recorded and no override set. *)
Definition start (k : PathKind) : State :=
  {| fs := k; p4Env := ∅; trace := [] |}.

(** The server [env], except that every [p4] run whose first argument is
    [command] exits with code 1. *)
Definition refusing (command : string) (env : Env) : Env :=
  {| hostname := hostname env;
     p4_exe := λ before vars args input,
       match args with
       | first :: _ =>
           if decide (first = command) then (1, "")
           else p4_exe env before vars args input
       | [] => p4_exe env before vars args input
       end;
     JSON_parse := JSON_parse env;
     io_fails := io_fails env |}.

(** A machine client on another host, whose record has no description. *)
Definition undescribedRecord : list (string * string) :=
  [ ("Client", "T_runner_1"); ("Owner", "bob"); ("Host", "elsewhere");
    ("Root", "/work/repo") ] ++ sameViews.

End Samples.

(** ** More vocabulary *)

Module Vocabulary.
Import Js Effects PerforceVersion PerforceCommandManager SourceProvider.

(** A version whose two components are numbers. *)
Definition fullySet (v : PerforceVersion.t) : Prop :=
  isNaN (major v) = false ∧ isNaN (minor v) = false.

(** [a] passes the minimum [b]. *)
Definition atLeast (a b : PerforceVersion.t) : Prop :=
  checkMinimum a b = inr true.

(** The calls of the purge: the sync to "#none" ([sync -k]) and the
    removal and creation of the root. *)
Definition is_purge (e : Event) : bool :=
  match e with
  | Exec ("sync" :: "-k" :: _) _ => true
  | RmRF _ | MkdirP _ => true
  | _ => false
  end.

(** In words: the text holds "Rev", any character but a line terminator,
    " P4/", a word, "/", the version [v] made of two groups of digits
    around a dot, "/", a group of digits and a space. *)
Definition bannerShape (out v : string) : Prop :=
  ∃ before c word d1 d2 build after,
    out = before +:+ "Rev" +:+ String c (" P4/" +:+ word +:+ "/" +:+ d1 +:+ "."
                 +:+ d2 +:+ "/" +:+ build +:+ " " +:+ after)
    ∧ is_line_terminator c = false
    ∧ word ≠ "" ∧ all is_word word = true
    ∧ d1 ≠ "" ∧ all is_digit d1 = true
    ∧ d2 ≠ "" ∧ all is_digit d2 = true
    ∧ build ≠ "" ∧ all is_digit build = true
    ∧ v = d1 +:+ "." +:+ d2.

(** A text without the character "$", which [replace] reads as the start
    of a replacement pattern. *)
Definition plain (text : string) : Prop :=
  all (λ c, bool_decide (c ≠ "$"%char)) text = true.

(** The variables each command of a run is started with: the version
    query with those the run began with, the purge, the clean and the sync
    with [P4PORT], [P4USER] and [P4CLIENT] set, every other command with
    [P4PORT] and [P4USER] set. *)
Definition variablesFor (settings : Settings) (name : string)
    (initial : gmap string string) (args : list string) : gmap string string :=
  let session := <["P4USER" := authToken settings]>
                   (<["P4PORT" := repositoryName settings]> initial) in
  match args with
  | ["-V"] => initial
  | "sync" :: _ | "clean" :: _ => <["P4CLIENT" := name]> session
  | _ => session
  end.

(** [passed env vars before t]: every command among the events [t],
    recorded after [before], exited with code 0 when it was started after
    all that was recorded before it, with the variables [vars] gives for
    its arguments. *)
Definition passed (env : Env) (vars : list string → gmap string string)
    (before t : list Event) : Prop :=
  ∀ pre args input post,
    t = pre ++ Exec args input :: post →
    ∃ out, p4_exe env (before ++ pre) (vars args) args input = (0, out).

(** [stopped env vars before t e]: when [e] is the rejection of a command
    with the exit code [code], that code is not 0 and it is the code of the
    last event of [t], a command started after all the others, which
    passed. *)
Definition stopped (env : Env) (vars : list string → gmap string string)
    (before t : list Event) (e : Exn) : Prop :=
  ∀ code, e = ExecError code →
    code ≠ 0
    ∧ ∃ pre args input out,
        t = pre ++ [Exec args input]
        ∧ passed env vars before pre
        ∧ p4_exe env (before ++ pre) (vars args) args input = (code, out).

(** [m], started with the variables [v], returns with the variables [v']
    after commands that all passed, and throws as [stopped] says. *)
Definition accounted (env : Env) (vars : list string → gmap string string)
    {A} (v : gmap string string) (m : M A) (v' : gmap string string) : Prop :=
  ∀ s, p4Env s = v →
    ∃ t, trace (m s).2 = trace s ++ t
         ∧ match (m s).1 with
           | inr _ => p4Env (m s).2 = v' ∧ passed env vars (trace s) t
           | inl e => stopped env vars (trace s) t e
           end.

End Vocabulary.

(** * Properties *)

(** ** Strings and numbers *)

Module JsFacts.
Import Js.

Lemma string_app_nil_l (s : string) : "" +:+ s = s.
Proof. reflexivity. Qed.

Lemma string_app_cons (c : ascii) (s t : string) :
  String c s +:+ t = String c (s +:+ t).
Proof. reflexivity. Qed.

Lemma string_app_nil_r (s : string) : s +:+ "" = s.
Proof. induction s as [|c s IH]; [done|]. by rewrite string_app_cons, IH. Qed.

Lemma string_app_assoc (s t u : string) : (s +:+ t) +:+ u = s +:+ t +:+ u.
Proof. induction s as [|c s IH]; [done|]. by rewrite !string_app_cons, IH. Qed.

(** What [span] returns: the run satisfies [p], the rest does not start
    with a character satisfying [p], and together they are the input. *)
Lemma span_spec (p : ascii → bool) (s run rest : string) :
  span p s = (run, rest) →
  s = run +:+ rest ∧ all p run = true
  ∧ match rest with "" => True | String c _ => p c = false end.
Proof.
  revert run rest. induction s as [|c s IH]; intros run rest; simpl.
  - by intros [= <- <-].
  - destruct (p c) eqn:Hc.
    + destruct (span p s) as [run' rest'] eqn:Hs. intros [= <- <-].
      destruct (IH _ _ eq_refl) as (-> & Hall & Hrest).
      rewrite string_app_cons. simpl. by rewrite Hc, Hall.
    + intros [= <- <-]. by rewrite Hc.
Qed.

(** Conversely a run followed by something it cannot absorb is found. *)
Lemma span_app (p : ascii → bool) (run rest : string) :
  all p run = true →
  match rest with "" => True | String c _ => p c = false end →
  span p (run +:+ rest) = (run, rest).
Proof.
  intros Hall Hrest. induction run as [|c run IH].
  - rewrite string_app_nil_l. destruct rest as [|c rest]; [done|]. simpl. by rewrite Hrest.
  - simpl in Hall. apply andb_true_iff in Hall as [Hc Hall].
    rewrite string_app_cons. simpl. by rewrite Hc, (IH Hall).
Qed.

Lemma round_double_not_NaN (n : Z) : isNaN (round_double n) = false.
Proof. unfold round_double. by repeat case_match. Qed.

Lemma decimal_value_from_digits (s : string) (acc : Z) :
  all is_digit s = true → is_Some (decimal_value_from acc s).
Proof.
  revert acc. induction s as [|c s IH]; intros acc; simpl; [by eauto|].
  intros [Hc Hs]%andb_true_iff. rewrite Hc. by apply IH.
Qed.

(** A group of digits converts to a number, never to [NaN]. *)
Lemma Number_digits (s : string) :
  all is_digit s = true → isNaN (Number (Some s)) = false.
Proof.
  intros Hs. unfold Number, decimal_value.
  destruct (decimal_value_from_digits s 0 Hs) as [n ->].
  apply round_double_not_NaN.
Qed.

End JsFacts.

(** ** The version comparator *)

Module VersionFacts.
Import Js JsFacts PerforceVersion Spec.

(** The strings the pattern of the constructor matches, with the two
    groups it captures. *)
Lemma match_version_Some (version m1 : string) (m2 : option string) :
  match_version version = Some (m1, m2) ↔
  ∃ d2, version = m1 +:+ "." +:+ d2 ∧ m1 ≠ ""
        ∧ all is_digit m1 = true ∧ all is_digit d2 = true
        ∧ m2 = match d2 with "" => None | _ => Some d2 end.
Proof.
  unfold match_version. split.
  - destruct (span is_digit version) as [r1 rest] eqn:H1.
    destruct (span_spec _ _ _ _ H1) as (-> & Hr1 & _).
    destruct r1 as [|c r1]; [done|].
    destruct rest as [|dot rest]; [done|].
    destruct (decide (dot = "."%char)) as [->|Hdot]; cycle 1.
    { destruct dot as [[] [] [] [] [] [] [] []]; done. }
    destruct (span is_digit rest) as [r2 rest2] eqn:H2.
    destruct (span_spec _ _ _ _ H2) as (-> & Hr2 & _).
    destruct rest2 as [|]; [|done]. intros [= <- <-].
    exists r2. rewrite string_app_nil_r. by destruct r2.
  - intros (d2 & -> & Hne & Hd1 & Hd2 & ->).
    rewrite (span_app is_digit m1 ("." +:+ d2)) by done.
    destruct m1 as [|c m1]; [done|]. rewrite string_app_cons, string_app_nil_l.
    rewrite <-(string_app_nil_r d2) at 1. rewrite (span_app is_digit d2 "") by done.
    by destruct d2.
Qed.

Lemma new_matched (version m1 : string) (m2 : option string) :
  match_version version = Some (m1, m2) →
  new (Some version) = {| major := Number (Some m1); minor := Number m2 |}.
Proof.
  intros H. unfold new. destruct version as [|c version]; [done|].
  simpl. by rewrite H.
Qed.

Lemma new_unmatched (version : string) :
  match_version version = None → new (Some version) = unset.
Proof.
  intros H. unfold new. destruct version as [|c version]; [done|].
  simpl. by rewrite H.
Qed.

Lemma isValid_digits (d : string) (mi : number) :
  all is_digit d = true →
  isValid {| major := Number (Some d); minor := mi |} = true.
Proof.
  intros Hd. unfold isValid. cbn [major]. by rewrite (Number_digits d Hd).
Qed.

(** Case analysis on every integer comparison in sight. *)
Ltac compare_numbers :=
  repeat match goal with
    | H : context [Z.ltb ?a ?b] |- _ => destruct (Z.ltb_spec a b); simpl in H
    | H : context [Z.leb ?a ?b] |- _ => destruct (Z.leb_spec a b); simpl in H
    | H : context [Z.eqb ?a ?b] |- _ => destruct (Z.eqb_spec a b); simpl in H
    | |- context [Z.ltb ?a ?b] => destruct (Z.ltb_spec a b); simpl
    | |- context [Z.leb ?a ?b] => destruct (Z.leb_spec a b); simpl
    | |- context [Z.eqb ?a ?b] => destruct (Z.eqb_spec a b); simpl
    end;
  try done; try lia.

Lemma decimal_value_from_nonneg (s : string) (acc n : Z) :
  0 ≤ acc → decimal_value_from acc s = Some n → 0 ≤ n.
Proof.
  revert acc. induction s as [|c s IH]; intros acc Hacc; simpl.
  - by intros [= <-].
  - destruct (is_digit c) eqn:Hc; [|done]. apply IH.
    unfold is_digit in Hc. apply andb_true_iff in Hc as [Hlo _].
    apply Nat.leb_le in Hlo. unfold digit_value. lia.
Qed.

Lemma round_double_nonneg (n : Z) : 0 ≤ n → nonneg (round_double n).
Proof.
  intros Hn. unfold round_double.
  destruct (n <? 2 ^ 53); [done|]. cbv zeta.
  destruct (2 ^ 1024 <=? _); [done|]. simpl.
  apply Z.mul_nonneg_nonneg; [|by apply Z.pow_nonneg].
  assert (0 ≤ Z.shiftr n (Z.log2 n - 52)) by by apply Z.shiftr_nonneg.
  repeat case_match; lia.
Qed.

Lemma Number_nonneg (v : option string) : nonneg (Number v).
Proof.
  destruct v as [s|]; [|done]. unfold Number, decimal_value.
  destruct (decimal_value_from 0 s) as [n|] eqn:Hn; [|done].
  apply round_double_nonneg. by apply (decimal_value_from_nonneg s 0).
Qed.

Lemma new_nonneg (version : option string) :
  nonneg (major (new version)) ∧ nonneg (minor (new version)).
Proof.
  unfold new. destruct (truthy version); [|done].
  destruct (match_version _) as [[m1 m2]|]; [|done].
  split; apply Number_nonneg.
Qed.

(** "0.0" is the least version: a minimum that rejects any parsed version
    rejects "0.0". *)
Lemma least_version (version : option string) (minimum : t) :
  checkMinimum (new version) minimum = inr false →
  checkMinimum (new (Some "0.0")) minimum = inr false.
Proof.
  destruct (new_nonneg version) as [Hmajor Hminor].
  change (new (Some "0.0")) with {| major := Num 0; minor := Num 0 |}.
  destruct (new version) as [ma mi]. unfold checkMinimum, isValid.
  destruct minimum as [[|y|] [|q|]], ma as [|x|], mi as [|p|];
    simpl in *; intros; try discriminate; compare_numbers.
  all: match goal with |- context [match ?y with 0 => _ | _ => _ end] =>
         destruct y; try done; lia end.
Qed.

(** The strings that give a valid version. *)
Lemma valid_version_shape (version : option string) :
  (∃ d1 d2, version = Some (d1 +:+ "." +:+ d2) ∧ d1 ≠ ""
            ∧ all is_digit d1 = true ∧ all is_digit d2 = true) →
  isValid (new version) = true.
Proof.
  intros (d1 & d2 & -> & Hne & H1 & H2).
  rewrite (new_matched _ d1 (match d2 with "" => None | _ => Some d2 end)).
  - by apply isValid_digits.
  - apply match_version_Some. by exists d2.
Qed.

(** C6, as the code has it: a version string is accepted exactly when it
    is a non-empty group of digits, a dot, and a possibly empty group of
    digits. The major component is the number the first group denotes. The
    minor component is the number the second group denotes, and [NaN]
    (unset) when that group is absent; the version is then still valid,
    because [isValid] looks at the major component only. Every other
    argument, also "2023", the empty string and [undefined], gives the
    unset version with both components [NaN]. The constructor is a total
    function: nothing is thrown while parsing. "2023.2" gives major 2023
    and minor 2. *)
Theorem C6_version_parsing (version : option string) :
  let v := new version in
  (isValid v = true ↔
     ∃ d1 d2, version = Some (d1 +:+ "." +:+ d2) ∧ d1 ≠ ""
              ∧ all is_digit d1 = true ∧ all is_digit d2 = true)
  ∧ (∀ d1 d2, version = Some (d1 +:+ "." +:+ d2) → d1 ≠ "" →
       all is_digit d1 = true → all is_digit d2 = true →
       isValid v = true
       ∧ major v = Number (Some d1)
       ∧ minor v = match d2 with "" => NaN | _ => Number (Some d2) end
       ∧ (isNaN (minor v) = true ↔ d2 = ""))
  ∧ (isValid v = false → v = unset)
  ∧ new (Some "2023.2") = {| major := Num 2023; minor := Num 2 |}
  ∧ new (Some "2023") = unset
  ∧ new (Some "") = unset
  ∧ new None = unset.
Proof.
  assert (Hshape : ∀ d1 d2, d1 ≠ "" → all is_digit d1 = true →
            all is_digit d2 = true →
            new (Some (d1 +:+ "." +:+ d2)) =
              {| major := Number (Some d1);
                 minor := match d2 with "" => NaN | _ => Number (Some d2) end |}).
  { intros d1 d2 Hne H1 H2.
    rewrite (new_matched _ d1 (match d2 with "" => None | _ => Some d2 end)).
    - by destruct d2.
    - apply match_version_Some. by exists d2. }
  simpl. split_and!; try reflexivity.
  - split.
    + destruct version as [version|]; [|done].
      destruct (match_version version) as [[m1 m2]|] eqn:Hm.
      * apply match_version_Some in Hm as (d2 & -> & ? & ? & ? & _). eauto 10.
      * by rewrite (new_unmatched _ Hm).
    + intros (d1 & d2 & -> & Hne & H1 & H2). rewrite Hshape by done.
      by apply isValid_digits.
  - intros d1 d2 -> Hne H1 H2. rewrite Hshape by done. cbn [major minor].
    split_and!; try done.
    + by apply isValid_digits.
    + destruct d2 as [|c d2]; [done|].
      rewrite (Number_digits (String c d2) H2). by split.
  - destruct version as [version|]; [|done].
    destruct (match_version version) as [[m1 m2]|] eqn:Hm.
    + rewrite (new_matched _ _ _ Hm).
      apply match_version_Some in Hm as (d2 & _ & _ & H1 & _).
      by rewrite isValid_digits.
    + by rewrite (new_unmatched _ Hm).
Qed.

(** The theorem at "2023.", accepted with major 2023 and the minor unset,
    and at "2023", refused. *)
Lemma C6_version_parsing_witness :
  (isValid (new (Some "2023.")) = true
   ∧ major (new (Some "2023.")) = Num 2023
   ∧ minor (new (Some "2023.")) = NaN)
  ∧ (∃ d1 d2, Some "2023." = Some (d1 +:+ "." +:+ d2) ∧ d1 ≠ ""
              ∧ all is_digit d1 = true ∧ all is_digit d2 = true)
  ∧ new (Some "2023") = unset.
Proof.
  split; [|split].
  - destruct (C6_version_parsing (Some "2023.")) as (_ & H & _).
    destruct (H "2023" "" eq_refl) as (Hvalid & Hmajor & Hminor & _);
      [done | reflexivity | reflexivity |].
    split_and!; [exact Hvalid | exact Hmajor | exact Hminor].
  - destruct (C6_version_parsing (Some "2023.")) as ([H _] & _).
    apply H. reflexivity.
  - destruct (C6_version_parsing (Some "2023")) as (_ & _ & H & _).
    apply H. reflexivity.
Defined.

(** C6 as stated fails at "2023.": the minor group is absent, and the
    version is valid. *)
Lemma C6_counterexample :
  match_version "2023." = Some ("2023", None)
  ∧ isValid (new (Some "2023.")) ≠ false.
Proof. by split. Qed.

(** C7, as the code has it. For valid [a] and [b] with equal major
    components [checkMinimum] is true exactly when [a.minor < b.minor] is
    false, which is [a.minor >= b.minor] when both minor components are
    set; with [a.major > b.major] it is true and with [a.major < b.major]
    false, whatever the minor components; an invalid minimum is an error
    for every [a]; an invalid [a] passes every valid minimum. *)
Theorem C7_checkMinimum :
  (∀ a b, isValid a = true → isValid b = true →
     strict_eq (major a) (major b) = true →
     checkMinimum a b = inr (negb (lt (minor a) (minor b)))
     ∧ (isNaN (minor a) = false → isNaN (minor b) = false →
        (checkMinimum a b = inr true ↔ ge (minor a) (minor b) = true)))
  ∧ (∀ a b, isValid a = true → isValid b = true →
       lt (major b) (major a) = true → checkMinimum a b = inr true)
  ∧ (∀ a b, isValid a = true → isValid b = true →
       lt (major a) (major b) = true → checkMinimum a b = inr false)
  ∧ (∀ a m, isValid m = false →
       checkMinimum a m = inl (Error "Arg minimum is not a valid version"))
  ∧ (∀ a m, isValid a = false → isValid m = true →
       checkMinimum a m = inr true).
Proof.
  unfold checkMinimum, isValid.
  split_and!; intros [[|x|] [|p|]] [[|y|] [|q|]]; simpl; intros;
    try discriminate; repeat split; intros; compare_numbers.
Qed.

(** The theorem at the versions "2023.2" and "2022.4", and at unset ones. *)
Lemma C7_checkMinimum_witness :
  checkMinimum (new (Some "2023.2")) (new (Some "2023.1")) = inr true
  ∧ checkMinimum (new (Some "2023.2")) (new (Some "2022.4")) = inr true
  ∧ checkMinimum (new (Some "2022.4")) (new (Some "2023.2")) = inr false
  ∧ checkMinimum (new (Some "2023.2")) (new None)
    = inl (Error "Arg minimum is not a valid version")
  ∧ checkMinimum (new None) (new (Some "2023.2")) = inr true.
Proof.
  destruct C7_checkMinimum as (Heq & Hgt & Hlt & Hbad & Hnan).
  split_and!.
  - apply (Heq (new (Some "2023.2")) (new (Some "2023.1")));
      reflexivity.
  - apply (Hgt (new (Some "2023.2")) (new (Some "2022.4"))); reflexivity.
  - apply (Hlt (new (Some "2022.4")) (new (Some "2023.2"))); reflexivity.
  - apply (Hbad (new (Some "2023.2")) (new None)); reflexivity.
  - apply (Hnan (new None) (new (Some "2023.2"))); reflexivity.
Defined.

(** C7 as stated fails at the valid versions "2023." and "2023.1": the
    major components are equal and the check is true, yet
    [a.minor >= b.minor] is false, the minor component of "2023." being
    unset. *)
Lemma C7_counterexample :
  let a := new (Some "2023.") in
  let b := new (Some "2023.1") in
  isValid a = true ∧ isValid b = true
  ∧ strict_eq (major a) (major b) = true
  ∧ ¬ (checkMinimum a b = inr true ↔ ge (minor a) (minor b) = true).
Proof. simpl. split_and!; try reflexivity. intros [H _]. by specialize (H eq_refl). Qed.

End VersionFacts.

(** ** Reading a workspace definition *)

Module ClientFacts.
Import Js JsFacts Effects PerforceCommandManager SourceProvider Spec Samples.

Lemma split_length (line : string) :
  length (split " " line) = S (spaces line).
Proof.
  induction line as [|c line IH]; [done|]. simpl.
  destruct (decide (c = " "%char)); simpl; [by rewrite IH|].
  destruct (split " " line); simpl in *; congruence.
Qed.

Lemma split_join (line : string) : join " " (split " " line) = line.
Proof.
  induction line as [|c line IH]; [done|]. simpl.
  destruct (decide (c = " "%char)) as [->|].
  - destruct (split " " line) eqn:Hs; [by pose proof (split_length line) as H; rewrite Hs in H|].
    change (join " " ("" :: s :: l)) with ("" +:+ " " +:+ join " " (s :: l)).
    by rewrite IH.
  - destruct (split " " line) as [|piece pieces] eqn:Hs;
      [by pose proof (split_length line) as H; rewrite Hs in H|].
    destruct pieces; simpl in *; [by rewrite IH|].
    rewrite string_app_cons. by rewrite IH.
Qed.

Lemma split_pieces (line : string) :
  Forall (λ piece, spaces piece = 0%nat) (split " " line).
Proof.
  induction line as [|c line IH]; simpl; [by repeat constructor|].
  destruct (decide (c = " "%char)); [by constructor|].
  destruct (split " " line) as [|piece pieces]; [by repeat constructor; simpl; case_decide|].
  inversion IH; subst. constructor; [|done]. simpl. by case_decide.
Qed.

(** A line with exactly one space splits into what is before and what is
    after that space. *)
Lemma split_one_space (line : string) :
  spaces line = 1%nat →
  ∃ part0 part1, split " " line = [part0; part1]
    ∧ line = part0 +:+ " " +:+ part1
    ∧ spaces part0 = 0%nat ∧ spaces part1 = 0%nat.
Proof.
  intros H1. pose proof (split_length line) as Hlen.
  pose proof (split_join line) as Hjoin. pose proof (split_pieces line) as Hp.
  rewrite H1 in Hlen.
  destruct (split " " line) as [|part0 [|part1 [|]]]; try done.
  exists part0, part1. inversion Hp as [|? ? ? Hp']; subst.
  inversion Hp'; subst. by split_and!.
Qed.

Lemma viewLines_cons (key value : string) (obj : list (string * string)) :
  viewLines ((key, value) :: obj) =
    if startsWith key "View" then value :: viewLines obj else viewLines obj.
Proof.
  unfold viewLines. rewrite filter_cons. simpl.
  case_decide as H; destruct (startsWith key "View"); done.
Qed.

(** What the loop over the keys of a record returns. *)
Lemma viewMappings_spec (obj : list (string * string)) :
  match viewMappings obj with
  | inl e =>
      ∃ line, line ∈ viewLines obj ∧ spaces line ≠ 1%nat
              ∧ e = Error ("Invalid client view '" +:+ line +:+ "'")
  | inr mappings =>
      Forall (λ line, spaces line = 1%nat) (viewLines obj)
      ∧ (λ m, depot m +:+ " " +:+ client_path m) <$> mappings = viewLines obj
      ∧ Forall (λ m, spaces (depot m) = 0%nat ∧ spaces (client_path m) = 0%nat)
               mappings
  end.
Proof.
  induction obj as [|[key value] obj IH]; [by simpl|].
  rewrite viewLines_cons. simpl. destruct (startsWith key "View"); [|done].
  destruct (decide (spaces value = 1%nat)) as [H1|H1].
  - destruct (split_one_space value H1) as (p0 & p1 & -> & Hv & H0 & H0').
    destruct (viewMappings obj) as [e|mappings].
    + destruct IH as (line & Hin & Hbad & ->). exists line.
      split_and!; [by right | done | done].
    + destruct IH as (Hall & Hmap & Hfree).
      split_and!; [by constructor | by rewrite fmap_cons, Hmap, Hv | by constructor].
  - pose proof (split_length value) as Hlen.
    assert (∀ e, inl e = @inl Exn (list PerforceMapping)
                         (Error ("Invalid client view '" +:+ value +:+ "'")) →
                 ∃ line, line ∈ value :: viewLines obj ∧ spaces line ≠ 1%nat
                         ∧ e = Error ("Invalid client view '" +:+ line +:+ "'"))
      as Hbad.
    { intros e [= ->]. exists value. split_and!; [by left | done | done]. }
    destruct (split " " value) as [|? [|? [|]]]; simpl in Hlen;
      try (by apply Hbad); lia.
Qed.

End ClientFacts.

(** ** Runs and what they record *)

Module RunFacts.
Import Js JsFacts Effects PerforceCommandManager SourceProvider Spec.

Lemma bind_run {A B} (m : M A) (k : A → M B) (s : State) :
  (m ≫= k) s =
    match m s with
    | (inr a, s') => k a s'
    | (inl e, s') => (inl e, s')
    end.
Proof. reflexivity. Qed.

(** A sequence returns only if its first part does. *)
Lemma bind_inr {A B} (m : M A) (k : A → M B) (s s' : State) (b : B) :
  (m ≫= k) s = (inr b, s') →
  ∃ a s1, m s = (inr a, s1) ∧ k a s1 = (inr b, s').
Proof. rewrite bind_run. destruct (m s) as [[e|a] s1]; [done|]. eauto. Qed.

(** What is thrown is not caught by what follows. *)
Lemma bind_inl {A B} (m : M A) (k : A → M B) (s s' : State) (e : Exn) :
  m s = (inl e, s') → (m ≫= k) s = (inl e, s').
Proof. intros H. by rewrite bind_run, H. Qed.

Lemma bind_inr_run {A B} (m : M A) (k : A → M B) (s s' : State) (a : A) :
  m s = (inr a, s') → (m ≫= k) s = k a s'.
Proof. intros H. by rewrite bind_run, H. Qed.

Lemma steps_ret {A} (a : A) : steps [] (λ x, x = a) (mret a : M A).
Proof.
  intros s. exists []. simpl. rewrite app_nil_r.
  split_and!; [done | done | by intros ? [= <-]].
Qed.

Lemma steps_throw {A} (e : Exn) (es : list Event) (Q : A → Prop) :
  steps es Q (throw e : M A).
Proof.
  intros s. exists []. simpl. rewrite app_nil_r.
  split_and!; [done | apply prefix_nil | done].
Qed.

Lemma steps_weaken {A} (es : list Event) (Q Q' : A → Prop) (m : M A) :
  steps es Q m → (∀ a, Q a → Q' a) → steps es Q' m.
Proof.
  intros Hm HQ s. destruct (Hm s) as (t & Ht & Hp & Hr).
  exists t. split_and!; [done..|]. intros a Ha.
  destruct (Hr a Ha). auto.
Qed.

Lemma steps_bind {A B} (es1 es2 : list Event) (Q1 : A → Prop) (Q2 : B → Prop)
    (m : M A) (k : A → M B) :
  steps es1 Q1 m → (∀ a, Q1 a → steps es2 Q2 (k a)) →
  steps (es1 ++ es2) Q2 (m ≫= k).
Proof.
  intros Hm Hk s. rewrite bind_run.
  destruct (Hm s) as (t1 & Ht1 & Hp1 & Hr1).
  destruct (m s) as [[e|a] s1]; simpl in *.
  - exists t1. split_and!; [done | by apply prefix_app_r | done].
  - destruct (Hr1 a eq_refl) as [-> Ha].
    destruct (Hk a Ha s1) as (t2 & Ht2 & Hp2 & Hr2).
    exists (es1 ++ t2). rewrite Ht2, Ht1, (assoc_L (++)).
    split_and!; [done | by apply prefix_app | ].
    intros b Hb. by destruct (Hr2 b Hb) as [-> ?].
Qed.

Lemma steps_when (es : list Event) (condition : bool) (body : M unit) :
  steps es (λ _, True) body →
  steps (if condition then es else []) (λ _, True) (when condition body).
Proof.
  destruct condition; [done|]. intros _.
  apply (steps_weaken _ _ _ _ (steps_ret ())). done.
Qed.

Lemma steps_setOutput (name value : string) :
  steps [SetOutput name value] (λ _, True) (setOutput name value).
Proof. intros s. exists [SetOutput name value]. by simpl. Qed.

Lemma steps_setEnvironmentVariable (name value : string) :
  steps [] (λ _, True) (setEnvironmentVariable name value).
Proof. intros s. exists []. simpl. by rewrite app_nil_r. Qed.

Section WithEnv.
Context (env : Env).

Lemma exec_trace (args : list string) (input : string) (s : State) :
  (exec env args input s).2 = record (Exec args input) s.
Proof.
  unfold exec. destruct (p4_exe env _ _ _ _) as [code out].
  by case_decide.
Qed.

Lemma steps_exec (args : list string) (input : string) :
  steps [Exec args input] (λ _, True) (exec env args input).
Proof. intros s. exists [Exec args input]. by rewrite exec_trace. Qed.

Lemma steps_execP4 (this : PerforceCommandManager.t)
    (args : list string) (input : string) :
  steps [Exec args input] (λ _, True) (execP4 env this args input).
Proof.
  intros s. unfold execP4. rewrite bind_run. unfold directoryExistsSync.
  destruct (fs s); try apply (steps_throw _ _ _ s); apply steps_exec.
Qed.

Lemma steps_rmRF (path : string) :
  steps [RmRF path] (λ _, True) (rmRF env path).
Proof.
  intros s. exists [RmRF path]. unfold rmRF. by destruct (io_fails env _).
Qed.

Lemma steps_mkdirP (path : string) :
  steps [MkdirP path] (λ _, True) (mkdirP env path).
Proof.
  intros s. exists [MkdirP path]. unfold mkdirP. by destruct (io_fails env _).
Qed.

End WithEnv.
End RunFacts.

(** ** The resolved client name and the fetched view *)

Module WorkspaceFacts.
Import Js JsFacts Effects PerforceCommandManager SourceProvider Spec Samples.
Import ClientFacts RunFacts.

Lemma collapseHyphens_none (host : string) :
  hyphens host = 0%nat → collapseHyphens host = host.
Proof.
  induction host as [|c host IH]; [done|]. simpl.
  case_decide; [done|]. intros Hrest. by rewrite IH.
Qed.

(** On a host name with at most one hyphen the code does what the
    specification says. *)
Lemma replace_one_hyphen (host : string) :
  (hyphens host ≤ 1)%nat → replace host "-" "_" = collapseHyphens host.
Proof.
  unfold replace. induction host as [|c host IH]; [done|].
  cbn [find strip_prefix hyphens collapseHyphens].
  destruct (decide ("-"%char = c)) as [<-|Hc].
  - rewrite decide_True by done. intros Hone.
    rewrite collapseHyphens_none by lia. done.
  - rewrite decide_False by done. intros Hone. specialize (IH Hone).
    destruct (find "-" host) as [[before after]|].
    + cbn [GetSubstitution] in *. rewrite string_app_cons, IH.
      by rewrite decide_False by done.
    + rewrite <-IH. by rewrite decide_False by done.
Qed.

(** C5. With the policy to reuse the template the resolved name is the
    template name; for the host "runner-1" the host-qualified name is
    "T_runner_1". For the host "build-agent-01" the code gives
    "T_build_agent-01": [replace] with a string pattern changes the first
    hyphen only, so the name is not the template name followed by the
    host name with every hyphen collapsed. *)
Theorem C5_first_hyphen_only :
  clientName (serverOn "build-agent-01" "2023.2" None) settings = "T_build_agent-01"
  ∧ clientName (serverOn "build-agent-01" "2023.2" None) settings
    ≠ clientTemplate settings +:+ "_" +:+ collapseHyphens "build-agent-01"
  ∧ clientName (serverOn "runner-1" "2023.2" None) settings
    = clientTemplate settings +:+ "_" +:+ collapseHyphens "runner-1"
  ∧ (∀ env name path r token template,
       clientName env {| repositoryName := name; repositoryPath := path;
                         ref := r; authToken := token;
                         clientTemplate := template;
                         useClientTemplate := true |} = template).
Proof. by split_and!. Qed.

(** C8, as the code has it. When the record of a workspace definition has
    been read, fetching it throws "Invalid client view" for a view line
    that does not hold exactly one space character, and nothing that
    follows the fetch is run; when every view line holds exactly one
    space, the fetch returns one mapping per line, made of what is before
    and what is after the space. *)
Theorem C8_fetch_view_lines (env : Env) (this : PerforceCommandManager.t)
    (name out : string) (obj : list (string * string)) (s : State) :
  fs s = Directory →
  p4_exe env (trace s) (p4Env s) ["-Mj"; "-Ztag"; "client"; "-o"; name] "" = (0, out) →
  JSON_parse env out = Some obj →
  let s' := record (Exec ["-Mj"; "-Ztag"; "client"; "-o"; name] "") s in
  (Exists (λ line, spaces line ≠ 1%nat) (viewLines obj) →
     ∃ line, line ∈ viewLines obj ∧ spaces line ≠ 1%nat
       ∧ client env this name s
         = (inl (Error ("Invalid client view '" +:+ line +:+ "'")), s')
       ∧ ∀ B (k : PerforceClient → M B),
           (client env this name ≫= k) s
           = (inl (Error ("Invalid client view '" +:+ line +:+ "'")), s'))
  ∧ (Forall (λ line, spaces line = 1%nat) (viewLines obj) →
     ∃ definition, client env this name s = (inr definition, s')
       ∧ (λ m, depot m +:+ " " +:+ client_path m) <$> view definition
         = viewLines obj
       ∧ Forall (λ m, spaces (depot m) = 0%nat ∧ spaces (client_path m) = 0%nat)
                (view definition)).
Proof.
  intros Hfs Hexe Hjson s'.
  assert (Hfetch : client env this name s =
            match viewMappings obj with
            | inl e => (inl e, s')
            | inr mappings =>
                (inr {| host := property "Host" obj;
                        client_name := property "Client" obj;
                        description := property "Description" obj;
                        options := property "Options" obj;
                        submitOptions := property "SubmitOptions" obj;
                        lineEnd := property "LineEnd" obj;
                        owner := property "Owner" obj;
                        root := property "Root" obj;
                        view := mappings |}, s')
            end).
  { unfold client, execP4. rewrite !bind_run. unfold directoryExistsSync.
    rewrite Hfs. unfold exec. rewrite Hexe. simpl. rewrite Hjson.
    by destruct (viewMappings obj). }
  pose proof (viewMappings_spec obj) as Hspec.
  destruct (viewMappings obj) as [e|mappings]; split.
  - intros _. destruct Hspec as (line & Hin & Hbad & ->).
    exists line. split_and!; [done..|]. intros B k. by apply bind_inl.
  - intros Hall. destruct Hspec as (line & Hin & Hbad & _).
    by apply (proj1 (Forall_forall _ _) Hall) in Hin.
  - intros Hex. destruct Hspec as (Hall & _).
    apply Exists_exists in Hex as (line & Hin & Hbad).
    by apply (proj1 (Forall_forall _ _) Hall) in Hin.
  - intros _. destruct Hspec as (_ & Hlines & Hfree). eauto.
Qed.

(** The theorem on the sample server: the template is read, and a client
    with a doubled space in its view line is refused. *)
Lemma C8_fetch_view_lines_witness :
  (∃ definition,
     client (sampleEnv "2023.2" None) (Build_t "/work/repo" PerforceVersion.unset)
            "T" (start Directory)
     = (inr definition,
        record (Exec ["-Mj"; "-Ztag"; "client"; "-o"; "T"] "") (start Directory))
     ∧ view definition
       = [ {| depot := "//depot/a/..."; client_path := "//T/a/..." |};
           {| depot := "//depot/b/..."; client_path := "//T/b/..." |} ])
  ∧ (∃ line,
       client (sampleEnv "2023.2" (Some [("View0", "//depot/a/...  //T_runner_1/a/...")]))
              (Build_t "/work/repo" PerforceVersion.unset)
              "T_runner_1" (start Directory)
       = (inl (Error ("Invalid client view '" +:+ line +:+ "'")),
          record (Exec ["-Mj"; "-Ztag"; "client"; "-o"; "T_runner_1"] "")
                 (start Directory))).
Proof.
  split.
  - destruct (C8_fetch_view_lines (sampleEnv "2023.2" None)
                (Build_t "/work/repo" PerforceVersion.unset)
                "T" "T" templateRecord (start Directory)
                eq_refl eq_refl eq_refl) as [_ Hgood].
    destruct Hgood as (definition & Hrun & _).
    { vm_compute. by repeat constructor. }
    exists definition. split; [exact Hrun|].
    vm_compute in Hrun. by injection Hrun as <-.
  - destruct (C8_fetch_view_lines
                (sampleEnv "2023.2" (Some [("View0", "//depot/a/...  //T_runner_1/a/...")]))
                (Build_t "/work/repo" PerforceVersion.unset)
                "T_runner_1" "T_runner_1"
                [("View0", "//depot/a/...  //T_runner_1/a/...")] (start Directory)
                eq_refl eq_refl eq_refl) as [Hbad _].
    destruct Hbad as (line & _ & _ & Hrun & _).
    { vm_compute. left. lia. }
    by exists line.
Defined.

(** C8 as stated fails for a view line whose two paths are separated by a
    tab: the line splits into exactly two whitespace-separated tokens,
    and fetching the definition throws. *)
Lemma C8_counterexample :
  let line := "//depot/a/..." +:+ tab +:+ "//T/a/..." in
  ws_split line = ["//depot/a/..."; "//T/a/..."]
  ∧ ws_tokens line = ["//depot/a/..."; "//T/a/..."]
  ∧ client (sampleEnv "2023.2" (Some [("View0", line)]))
           (Build_t "/work/repo" PerforceVersion.unset)
           "T_runner_1" (start Directory)
    = (inl (Error ("Invalid client view '" +:+ line +:+ "'")),
       record (Exec ["-Mj"; "-Ztag"; "client"; "-o"; "T_runner_1"] "")
              (start Directory)).
Proof. vm_compute. by split_and!. Qed.

End WorkspaceFacts.

(** ** The phases of a run *)

Module PhaseFacts.
Import Js JsFacts Effects PerforceCommandManager SourceProvider Spec.
Import VersionFacts ClientFacts RunFacts.

Lemma steps_emits {A} (P : Event → Prop) (es : list Event) (Q : A → Prop)
    (m : M A) :
  steps es Q m → Forall P es → emits P m.
Proof.
  intros Hm HP s. destruct (Hm s) as (t & Ht & [rest ->] & _).
  exists t. split; [done|]. by apply Forall_app in HP as [? _].
Qed.

Lemma emits_bind {A B} (P : Event → Prop) (m : M A) (k : A → M B) :
  emits P m → (∀ a, emits P (k a)) → emits P (m ≫= k).
Proof.
  intros Hm Hk s. rewrite bind_run. destruct (Hm s) as (t1 & Ht1 & HP1).
  destruct (m s) as [[e|a] s1]; simpl in *; [by exists t1|].
  destruct (Hk a s1) as (t2 & Ht2 & HP2). exists (t1 ++ t2).
  rewrite Ht2, Ht1, (assoc_L (++)). split; [done|]. by apply Forall_app.
Qed.

Section WithEnv.
Context (env : Env).

(** With its working directory in place, [execP4] is the run of the
    binary. *)
Lemma execP4_run (this : PerforceCommandManager.t) (args : list string)
    (input : string) (s : State) :
  fs s = Directory → execP4 env this args input s = exec env args input s.
Proof.
  intros Hfs. unfold execP4. rewrite bind_run. unfold directoryExistsSync.
  by rewrite Hfs.
Qed.

(** A run of the binary that returns: the event is recorded, the exit
    code was 0, and nothing else changes. *)
Lemma execP4_inr (this : PerforceCommandManager.t) (args : list string)
    (input : string) (s s' : State) (output : PerforceOutput) :
  execP4 env this args input s = (inr output, s') →
  fs s = Directory ∧ s' = record (Exec args input) s
  ∧ p4_exe env (trace s) (p4Env s) args input = (0, stdout output).
Proof.
  unfold execP4. rewrite bind_run. unfold directoryExistsSync.
  destruct (fs s); try done. unfold exec.
  destruct (p4_exe env _ _ _ _) as [code out]. case_decide; [|done].
  intros [= <- <-]. by subst.
Qed.

Lemma emits_execP4 (P : Event → Prop) (this : PerforceCommandManager.t)
    (args : list string) (input : string) :
  P (Exec args input) → emits P (execP4 env this args input).
Proof.
  intros HP. apply (steps_emits _ [Exec args input] (λ _, True));
    [apply steps_execP4 | by repeat constructor].
Qed.

(** What the preparation of the target root records, and leaves. *)
Lemma prepareDirectory_run (settings : Settings) (s : State) :
  ∃ t, trace (prepareDirectory env settings s).2 = trace s ++ t
       ∧ t `prefix_of` prepareEvents (fs s) (repositoryPath settings)
       ∧ p4Env (prepareDirectory env settings s).2 = p4Env s
       ∧ ((prepareDirectory env settings s).1 = inr () →
          t = prepareEvents (fs s) (repositoryPath settings)
          ∧ fs (prepareDirectory env settings s).2 = Directory).
Proof.
  unfold prepareDirectory, fileExistsSync, directoryExistsSync, when, rmRF, mkdirP.
  cbv [mbind M_bind mret M_ret].
  destruct s as [k vars t0]. destruct k; simpl.
  - destruct (io_fails env t0); simpl;
      (eexists; split_and!; [done | done | done | done]).
  - destruct (io_fails env t0); simpl.
    + exists [RmRF (repositoryPath settings)].
      split_and!; [done | by exists [MkdirP (repositoryPath settings)] | done | done].
    + destruct (io_fails env (t0 ++ _)); simpl;
        (exists [RmRF (repositoryPath settings); MkdirP (repositoryPath settings)];
         rewrite <-(assoc_L (++)); split_and!; done).
  - exists []. rewrite (right_id_L [] (++)). done.
Qed.

Lemma run1_Some (p : ascii → bool) (s run rest : string) :
  run1 p s = Some (run, rest) → run ≠ "" ∧ all p run = true.
Proof.
  unfold run1. destruct (span p s) as [r rest'] eqn:Hspan.
  destruct (span_spec _ _ _ _ Hspan) as (_ & Hall & _).
  destruct r; [done|]. by intros [= <- <-].
Qed.

(** The group captured from the banner of [p4 -V] is two non-empty groups
    of digits around a dot. *)
Lemma match_rev_here_Some (s v : string) :
  match_rev_here s = Some v →
  ∃ d1 d2, v = d1 +:+ "." +:+ d2 ∧ d1 ≠ "" ∧ d2 ≠ ""
           ∧ all is_digit d1 = true ∧ all is_digit d2 = true.
Proof.
  unfold match_rev_here. intros H.
  repeat match type of H with
    | context [strip_prefix ?a ?b] =>
        destruct (strip_prefix a b); cbn [mbind option_bind] in H; [|done]
    | context [run1 ?a ?b] =>
        let Hr := fresh "Hr" in
        destruct (run1 a b) as [[? ?]|] eqn:Hr;
        cbn [mbind option_bind] in H; [|done]
    | match ?x with "" => _ | String _ _ => _ end = _ =>
        destruct x; cbn [mbind option_bind] in H; [done|]
    | (if ?c then _ else _) = _ =>
        destruct c; cbn [mbind option_bind] in H; [done|]
    end.
  injection H as <-.
  repeat match goal with
    | Hr : run1 _ _ = Some _ |- _ => apply run1_Some in Hr as [? ?]
    end.
  eauto 10.
Qed.

Lemma match_rev_Some (s v : string) :
  match_rev s = Some v →
  ∃ d1 d2, v = d1 +:+ "." +:+ d2 ∧ d1 ≠ "" ∧ d2 ≠ ""
           ∧ all is_digit d1 = true ∧ all is_digit d2 = true.
Proof.
  induction s as [|c s IH]; cbn [match_rev].
  - destruct (match_rev_here "") eqn:H; [|done].
    intros [= <-]. by apply (match_rev_here_Some "").
  - destruct (match_rev_here (String c s)) eqn:H; [|done].
    intros [= <-]. by apply (match_rev_here_Some (String c s)).
Qed.

(** Every version found in the banner is a valid one. *)
Lemma match_rev_valid (s v : string) :
  match_rev s = Some v →
  PerforceVersion.isValid (PerforceVersion.new (Some v)) = true.
Proof.
  intros (d1 & d2 & -> & Hne & _ & H1 & H2)%match_rev_Some.
  apply (valid_version_shape (Some (d1 +:+ "." +:+ d2))). eauto 10.
Qed.

(** The command manager is created from the banner of [p4 -V] alone. *)
Lemma createCommandManager_run (workingDirectory out : string) (s : State) :
  fs s = Directory →
  p4_exe env (trace s) (p4Env s) ["-V"] "" = (0, out) →
  createCommandManager env workingDirectory s =
    (match match_rev out with
     | Some v =>
         inr {| workingDirectory := workingDirectory;
                perforceVersion := PerforceVersion.new (Some v) |}
     | None => inl (Error "Unable to determine p4 version")
     end, record (Exec ["-V"] "") s).
Proof.
  intros Hfs Hexe. unfold createCommandManager. rewrite bind_run.
  rewrite execP4_run by done. unfold exec. rewrite Hexe. simpl.
  destruct (match_rev out) as [v|] eqn:Hv; [|done].
  by rewrite (match_rev_valid _ _ Hv).
Qed.

Lemma client_inr (this : PerforceCommandManager.t) (name : string)
    (s s' : State) (definition : PerforceClient) :
  client env this name s = (inr definition, s') →
  fs s = Directory
  ∧ s' = record (Exec ["-Mj"; "-Ztag"; "client"; "-o"; name] "") s.
Proof.
  unfold client. intros (output & s1 & Hexec & Hrest)%bind_inr.
  apply execP4_inr in Hexec as (Hfs & -> & _). split; [done|].
  destruct (JSON_parse env _); [|done].
  destruct (viewMappings _); [done|]. by injection Hrest.
Qed.

Lemma clientExists_inr (this : PerforceCommandManager.t) (name : string)
    (s s' : State) (found : bool) :
  clientExists env this name s = (inr found, s') →
  fs s = Directory ∧ s' = record (Exec ["clients"; "-e"; name] "") s.
Proof.
  unfold clientExists. intros (output & s1 & Hexec & Hrest)%bind_inr.
  apply execP4_inr in Hexec as (Hfs & -> & _). by injection Hrest.
Qed.

(** The session that returns has verified the login and read the
    template. *)
Lemma openSession_inr (settings : Settings) (p4 : PerforceCommandManager.t)
    (s s' : State) (template : PerforceClient) :
  openSession env settings p4 s = (inr template, s') →
  fs s = Directory ∧ fs s' = Directory
  ∧ trace s' = trace s ++ [ Exec ["login"; "-s"] "";
                             Exec ["-Mj"; "-Ztag"; "client"; "-o"; clientTemplate settings] "" ].
Proof.
  unfold openSession.
  intros ([] & s1 & [= <-] & H)%bind_inr.
  apply bind_inr in H as ([] & s2 & [= <-] & H).
  apply bind_inr in H as ([] & s3 & Hlogin & H).
  unfold try_catch, verifyLogin in Hlogin. rewrite bind_run in Hlogin.
  destruct (execP4 env p4 ["login"; "-s"] "" _) as [[e|output] s4] eqn:Hexec;
    [done|]. injection Hlogin as <-.
  apply execP4_inr in Hexec as (Hfs & -> & _).
  apply client_inr in H as (_ & ->). simpl in *.
  split_and!; [done | done | by rewrite <-(assoc_L (++))].
Qed.

(** A run that reaches the choice between its two branches has prepared
    the directory and made its reads, in this order, and nothing else. *)
Lemma reachClient_inr (settings : Settings) (s0 s1 : State)
    (p4 : PerforceCommandManager.t) (template : PerforceClient)
    (existing : option PerforceClient) :
  reachClient env settings s0 = (inr (p4, template, existing), s1) →
  fs s1 = Directory
  ∧ workingDirectory p4 = repositoryPath settings
  ∧ trace s1 = trace s0
               ++ prepareEvents (fs s0) (repositoryPath settings)
               ++ sessionEvents settings
               ++ Exec ["clients"; "-e"; clientName env settings] ""
                  :: match existing with
                     | Some _ =>
                         [Exec ["-Mj"; "-Ztag"; "client"; "-o"; clientName env settings] ""]
                     | None => []
                     end.
Proof.
  unfold reachClient. intros ([] & sa & Hprep & H)%bind_inr.
  destruct (prepareDirectory_run settings s0) as (t & Ht & _ & _ & Hdone).
  rewrite Hprep in Ht, Hdone. simpl in Ht, Hdone.
  destruct (Hdone eq_refl) as [-> Hfs].
  apply bind_inr in H as (p4' & sb & Hcreate & H).
  unfold getPerforceCommandManager, createCommandManager in Hcreate.
  apply bind_inr in Hcreate as (output & sb' & Hexec & Hcreate).
  apply execP4_inr in Hexec as (_ & -> & _).
  destruct (negb _) in Hcreate; [done|]. injection Hcreate as <- <-.
  apply bind_inr in H as (template' & sc & Hopen & H).
  apply openSession_inr in Hopen as (_ & Hfsc & Htc).
  apply bind_inr in H as (found & sd & Hfound & H).
  apply clientExists_inr in Hfound as (_ & ->).
  destruct found.
  - apply bind_inr in H as (existing' & se & Hread & H).
    apply client_inr in Hread as (_ & ->). injection H as <- <- <- <-.
    simpl in *. split_and!; [done | done |].
    rewrite Htc, Ht. simpl. by rewrite <-!(assoc_L (++)).
  - injection H as <- <- <- <-. simpl in *. split_and!; [done | done |].
    rewrite Htc, Ht. simpl. by rewrite <-!(assoc_L (++)).
Qed.

(** [getSource] is the run up to the choice of a branch, the branch, and
    the checkout. *)
Lemma getSource_run (settings : Settings) (s : State) :
  getSource env settings s =
    (reachClient env settings ≫= λ '(p4, template, existing),
       match existing with
       | Some existingClient => reconcile env settings p4 template existingClient
       | None => create env settings p4 template
       end ≫= checkOut env settings p4) s.
Proof.
  unfold getSource, reachClient, setUpClientWorkspace.
  cbv [mbind M_bind mret M_ret].
  destruct (prepareDirectory env settings s) as [[e|[]] sa]; [done|].
  destruct (getPerforceCommandManager env settings sa) as [[e|p4] sb]; [done|].
  destruct (openSession env settings p4 sb) as [[e|template] sc]; [done|].
  destruct (clientExists env p4 (clientName env settings) sc) as [[e|[]] sd];
    [done| |done].
  by destruct (client env p4 (clientName env settings) sd) as [[e|existing] se].
Qed.

Lemma steps_execP4_unit (this : PerforceCommandManager.t)
    (args : list string) (input : string) :
  steps [Exec args input] (λ _, True) (execP4 env this args input;; mret ()).
Proof.
  apply (steps_bind [Exec args input] [] (λ _, True)); [apply steps_execP4|].
  intros _ _. apply (steps_weaken _ _ _ _ (steps_ret ())). done.
Qed.

Lemma steps_editClient (this : PerforceCommandManager.t)
    (definition : PerforceClient) :
  steps (writeEvents definition) (λ _, True) (editClient env this definition).
Proof.
  unfold editClient, writeEvents. destruct (clientSpec definition) as [e|lines].
  - apply steps_throw.
  - apply steps_execP4_unit.
Qed.

Lemma steps_purge (settings : Settings) (p4 : PerforceCommandManager.t) :
  steps (purgeEvents env settings) (λ _, True) (purge env settings p4).
Proof.
  unfold purge, purgeEvents.
  apply (steps_bind [_] [_; _] (λ _, True)); [apply steps_execP4_unit|].
  intros _ _. apply (steps_bind [_] [_] (λ _, True)); [apply steps_rmRF|].
  intros _ _. apply steps_mkdirP.
Qed.

(** The checkout after the branch: the purge when it is needed, then
    clean, sync and output. *)
Lemma steps_checkOut (settings : Settings) (p4 : PerforceCommandManager.t)
    (needSyncNone : bool) :
  steps ((if needSyncNone then purgeEvents env settings else [])
         ++ checkoutEvents env settings)
        (λ _, True) (checkOut env settings p4 needSyncNone).
Proof.
  unfold checkOut, checkoutEvents.
  apply (steps_bind [] _ (λ _, True)); [apply steps_setEnvironmentVariable|].
  intros _ _. apply (steps_bind _ [_; _; _] (λ _, True));
    [apply steps_when, steps_purge|].
  intros _ _. apply (steps_bind [_] [_; _] (λ _, True)); [apply steps_execP4_unit|].
  intros _ _. apply (steps_bind [_] [_] (λ _, True)); [apply steps_execP4_unit|].
  intros _ _. apply steps_setOutput.
Qed.

(** The branch of an existing client: it writes the rebuilt definition
    when a rebuild is due, and asks for the purge exactly then. *)
Lemma steps_reconcile (settings : Settings) (p4 : PerforceCommandManager.t)
    (template existing : PerforceClient) :
  steps (if rebuildClient env settings template existing
         then writeEvents (rebuiltClient env settings template existing)
         else [])
        (λ needSyncNone,
           needSyncNone = rebuildClient env settings template existing)
        (reconcile env settings p4 template existing).
Proof.
  unfold reconcile. destruct (_ && _); [apply steps_throw|].
  destruct (rebuildClient env settings template existing).
  - rewrite <-(app_nil_r (writeEvents _)).
    apply (steps_bind _ [] (λ _, True)); [apply steps_editClient|].
    intros _ _. apply steps_ret.
  - apply steps_ret.
Qed.

(** All that a run records once it has read the existing client. *)
Lemma steps_existing (settings : Settings) (p4 : PerforceCommandManager.t)
    (template existing : PerforceClient) :
  steps ((if rebuildClient env settings template existing
          then writeEvents (rebuiltClient env settings template existing)
               ++ purgeEvents env settings
          else [])
         ++ checkoutEvents env settings)
        (λ _, True)
        (reconcile env settings p4 template existing ≫= checkOut env settings p4).
Proof.
  assert (Hes : (if rebuildClient env settings template existing
                 then writeEvents (rebuiltClient env settings template existing)
                      ++ purgeEvents env settings
                 else [])
                ++ checkoutEvents env settings
                = (if rebuildClient env settings template existing
                   then writeEvents (rebuiltClient env settings template existing)
                   else [])
                  ++ ((if rebuildClient env settings template existing
                       then purgeEvents env settings else [])
                      ++ checkoutEvents env settings)).
  { destruct (rebuildClient _ _ _ _); [by rewrite <-(assoc_L (++))|done]. }
  rewrite Hes. eapply steps_bind; [apply steps_reconcile|].
  intros needSyncNone ->. apply steps_checkOut.
Qed.

Lemma emits_client (P : Event → Prop) (this : PerforceCommandManager.t)
    (name : string) :
  P (Exec ["-Mj"; "-Ztag"; "client"; "-o"; name] "") →
  emits P (client env this name).
Proof.
  intros HP. unfold client. apply emits_bind; [by apply emits_execP4|].
  intros output s. exists []. rewrite app_nil_r. split; [|done].
  destruct (JSON_parse env _); [|done]. by destruct (viewMappings _).
Qed.

(** Neither branch sets an output. *)
Lemma emits_branch (settings : Settings) (p4 : PerforceCommandManager.t)
    (template : PerforceClient) (existing : option PerforceClient) :
  emits (λ e, is_output e = false)
        (match existing with
         | Some existingClient => reconcile env settings p4 template existingClient
         | None => create env settings p4 template
         end).
Proof.
  destruct existing as [existing|].
  - eapply steps_emits; [apply steps_reconcile|].
    destruct (rebuildClient _ _ _ _); [|done].
    unfold writeEvents. destruct (clientSpec _); by repeat constructor.
  - unfold create. apply emits_bind; [by apply emits_client|].
    intros newClient. apply emits_bind.
    + eapply steps_emits; [apply steps_editClient|].
      unfold writeEvents. destruct (clientSpec _); by repeat constructor.
    + intros _ s. exists []. by rewrite app_nil_r.
Qed.

End WithEnv.
End PhaseFacts.

(** ** Synchronizing *)

Module SynchronizeFacts.
Import Js JsFacts Effects PerforceCommandManager SourceProvider Spec Samples.
Import VersionFacts ClientFacts RunFacts PhaseFacts.

(** C1, as the code has it. Once the target root is prepared the version
    banner of the remote system is read. When no version is found in it
    the whole operation fails with "Unable to determine p4 version" and
    nothing further is done. When a version is found the command manager
    is created with it, whatever the version: it is valid, and it is
    compared with no minimum. *)
Theorem C1_version_preflight (env : Env) (settings : Settings)
    (s0 s1 : State) (out : string) :
  prepareDirectory env settings s0 = (inr (), s1) →
  p4_exe env (trace s1) (p4Env s1) ["-V"] "" = (0, out) →
  (match_rev out = None →
     getSource env settings s0
     = (inl (Error "Unable to determine p4 version"), record (Exec ["-V"] "") s1))
  ∧ (∀ v, match_rev out = Some v →
       PerforceVersion.isValid (PerforceVersion.new (Some v)) = true
       ∧ getPerforceCommandManager env settings s1
         = (inr {| workingDirectory := repositoryPath settings;
                   perforceVersion := PerforceVersion.new (Some v) |},
            record (Exec ["-V"] "") s1)).
Proof.
  intros Hprep Hexe.
  destruct (prepareDirectory_run env settings s0) as (t & _ & _ & _ & Hdone).
  rewrite Hprep in Hdone. destruct (Hdone eq_refl) as [_ Hfs]. simpl in Hfs.
  pose proof (createCommandManager_run env (repositoryPath settings) out s1
                Hfs Hexe) as Hcreate.
  split.
  - intros Hnone. rewrite Hnone in Hcreate. unfold getSource.
    rewrite (bind_inr_run _ _ _ _ _ Hprep). by apply bind_inl.
  - intros v Hv. rewrite Hv in Hcreate. split; [|done].
    by apply (match_rev_valid out).
Qed.

(** The theorem on the sample server, once with a banner that holds no
    version and once with the version 0.0. *)
Lemma C1_version_preflight_witness :
  getSource (sampleEnv "2023" None) settings (start Missing)
  = (inl (Error "Unable to determine p4 version"),
     record (Exec ["-V"] "")
            (set_fs Directory (record (MkdirP "/work/repo") (start Missing))))
  ∧ PerforceVersion.isValid (PerforceVersion.new (Some "0.0")) = true.
Proof.
  split.
  - apply (C1_version_preflight (sampleEnv "2023" None) settings (start Missing)
             _ (versionBanner "2023") eq_refl eq_refl).
    reflexivity.
  - apply (C1_version_preflight (sampleEnv "0.0" None) settings (start Missing)
             _ (versionBanner "0.0") eq_refl eq_refl).
    reflexivity.
Defined.

(** C1 as stated fails on a server that reports the version 0.0: the
    command manager is created and the run completes, although every
    minimum that rejects any version at all rejects 0.0. *)
Lemma C1_counterexample :
  (getSource (sampleEnv "0.0" None) settings (start Directory)).1 = inr ()
  ∧ (getPerforceCommandManager (sampleEnv "0.0" None) settings (start Directory)).1
    = inr {| workingDirectory := "/work/repo";
             perforceVersion := PerforceVersion.new (Some "0.0") |}
  ∧ PerforceVersion.checkMinimum (PerforceVersion.new (Some "0.0"))
                                 (PerforceVersion.new (Some "2023.1"))
    = inr false
  ∧ ∀ version minimum,
      PerforceVersion.checkMinimum (PerforceVersion.new version) minimum = inr false →
      PerforceVersion.checkMinimum (PerforceVersion.new (Some "0.0")) minimum
      = inr false.
Proof.
  split_and!; [by vm_compute | by vm_compute | by vm_compute |].
  apply least_version.
Qed.

(** C2, as the code has it. When the existing workspace definition has
    an owner that is not empty and differs from the authenticated
    identity, the run fails there, with a message that contains both
    names. Up to then it has prepared the target root and made its reads;
    it has written no client definition, synced nothing and cleaned
    nothing. *)
Theorem C2_owner_conflict (env : Env) (settings : Settings) (s0 s1 : State)
    (p4 : PerforceCommandManager.t) (template existing : PerforceClient)
    (name : string) :
  reachClient env settings s0 = (inr (p4, template, Some existing), s1) →
  owner existing = Some name → name ≠ "" → name ≠ authToken settings →
  let message := "Client owner does not match, aborting. "
                 +:+ name +:+ " != " +:+ authToken settings in
  let reads := prepareEvents (fs s0) (repositoryPath settings)
               ++ sessionEvents settings
               ++ [ Exec ["clients"; "-e"; clientName env settings] "";
                    Exec ["-Mj"; "-Ztag"; "client"; "-o"; clientName env settings] "" ] in
  getSource env settings s0 = (inl (Error message), s1)
  ∧ contains message name
  ∧ contains message (authToken settings)
  ∧ trace s1 = trace s0 ++ reads
  ∧ Forall (λ e, is_write e = false) reads.
Proof.
  intros Hreach Howner Hne Hdiff message reads. split_and!.
  - rewrite getSource_run, (bind_inr_run _ _ _ _ _ Hreach).
    apply bind_inl. unfold reconcile. rewrite Howner.
    destruct name as [|c name]; [done|]. simpl.
    rewrite bool_decide_true by congruence. done.
  - by exists "Client owner does not match, aborting. ",
             (" != " +:+ authToken settings).
  - exists ("Client owner does not match, aborting. " +:+ name +:+ " != "), "".
    by rewrite string_app_nil_r, !string_app_assoc.
  - by apply reachClient_inr in Hreach as (_ & _ & ->).
  - unfold reads. destruct (fs s0); by repeat constructor.
Qed.

(** The theorem on the sample server, where "alice" owns the client and
    "bob" runs the action. *)
Lemma C2_owner_conflict_witness :
  (getSource (sampleEnv "2023.2" (Some (machineRecord "alice" sameViews)))
             settings (start Directory)).1
  = inl (Error "Client owner does not match, aborting. alice != bob").
Proof.
  destruct (reachClient (sampleEnv "2023.2" (Some (machineRecord "alice" sameViews)))
                        settings (start Directory))
    as [[e|[[p4 template] [existing|]]] s1] eqn:Hreach;
    try (vm_compute in Hreach; discriminate).
  assert (Howner : owner existing = Some "alice").
  { vm_compute in Hreach. by injection Hreach as <- <- <- <-. }
  destruct (C2_owner_conflict _ _ _ _ _ _ _ "alice" Hreach Howner) as [Hrun _];
    [done | done |].
  by rewrite Hrun.
Defined.

(** C2 as stated fails for an existing client whose owner is empty: the
    owner differs from "bob", and the run goes on, rewrites the client
    definition and completes. *)
Lemma C2_counterexample :
  let env := sampleEnv "2023.2" (Some (machineRecord "" extraViews)) in
  ∃ p4 template existing s1,
    reachClient env settings (start Directory)
    = (inr (p4, template, Some existing), s1)
    ∧ owner existing = Some ""
    ∧ owner existing ≠ Some (authToken settings)
    ∧ (getSource env settings (start Directory)).1 = inr ()
    ∧ Exists (λ e, is_write e = true)
             (trace (getSource env settings (start Directory)).2).
Proof.
  simpl. eexists _, _, _, _. split; [by vm_compute|].
  split_and!; [done | done | by vm_compute |].
  vm_compute. do 5 apply Exists_cons_tl. by apply Exists_cons_hd.
Qed.

(** C4. Once the existing client has been read, a run records a prefix of
    a fixed sequence, and the whole sequence when it completes. When a
    rebuild is due the sequence is: the write of the rebuilt definition,
    the sync to "#none", the removal of the root, its creation, clean,
    sync, output; so the root is removed only after the sync to "#none"
    was issued, and it is removed and recreated whenever the run gets
    that far. When no rebuild is due the sequence is clean, sync, output:
    neither the sync to "#none" nor the wipe happens. Before that point
    the run has made its reads and, only when the root was not a
    directory to begin with, prepared it. *)
Theorem C4_purge_order (env : Env) (settings : Settings) (s0 s1 : State)
    (p4 : PerforceCommandManager.t) (template existing : PerforceClient) :
  reachClient env settings s0 = (inr (p4, template, Some existing), s1) →
  let run := getSource env settings s0 in
  let name := clientName env settings in
  let purge :=
    [ Exec ["sync"; "-k"; "//" +:+ name +:+ "/...#none"] "";
      RmRF (repositoryPath settings);
      MkdirP (repositoryPath settings) ] in
  let checkout :=
    [ Exec ["clean"; "-a"; "-d"; "-e"; "//" +:+ name +:+ "/..."] "";
      Exec ["sync"; "//" +:+ name +:+ "/..." +:+ ref settings] "";
      SetOutput "commit" (ref settings) ] in
  (rebuildClient env settings template existing = true →
     let sequence :=
       writeEvents (rebuiltClient env settings template existing)
       ++ purge ++ checkout in
     ∃ t, trace run.2 = trace s1 ++ t
          ∧ t `prefix_of` sequence
          ∧ (run.1 = inr () → t = sequence)
          ∧ ∀ before after, t = before ++ RmRF (repositoryPath settings) :: after →
              ∃ earlier,
                before = earlier ++ [Exec ["sync"; "-k"; "//" +:+ name +:+ "/...#none"] ""])
  ∧ (rebuildClient env settings template existing = false →
     ∃ t, trace run.2 = trace s1 ++ t
          ∧ t `prefix_of` checkout
          ∧ (run.1 = inr () → t = checkout))
  ∧ trace s1 = trace s0
               ++ prepareEvents (fs s0) (repositoryPath settings)
               ++ sessionEvents settings
               ++ [ Exec ["clients"; "-e"; name] "";
                    Exec ["-Mj"; "-Ztag"; "client"; "-o"; name] "" ].
Proof.
  intros Hreach run name purge checkout.
  assert (Hrun : run = (reconcile env settings p4 template existing
                        ≫= checkOut env settings p4) s1).
  { unfold run. by rewrite getSource_run, (bind_inr_run _ _ _ _ _ Hreach). }
  destruct (steps_existing env settings p4 template existing s1)
    as (t & Ht & Hprefix & Hdone).
  rewrite <-Hrun in Ht, Hdone. split_and!.
  - intros Hrebuild sequence. rewrite Hrebuild in Hprefix, Hdone.
    rewrite <-(assoc_L (++)) in Hprefix, Hdone.
    exists t. split_and!; [done | done | by intros H; apply (Hdone ()) |].
    intros before after ->. destruct Hprefix as [rest Hsequence].
    rewrite <-!(assoc_L (++)) in Hsequence. simpl in Hsequence.
    unfold writeEvents in Hsequence.
    destruct (clientSpec _) as [e|lines]; simpl in Hsequence;
      repeat (destruct before as [|? before]; simplify_eq/=);
      [by exists [] | by exists [Exec ["client"; "-i"] (join newline lines)]].
  - intros Hrebuild. rewrite Hrebuild in Hprefix, Hdone.
    exists t. split_and!; [done | done | by intros H; apply (Hdone ())].
  - by apply reachClient_inr in Hreach as (_ & _ & ->).
Qed.

(** The theorem on the sample server: a client with an extra mapping is
    rebuilt and purged in this order, a client that matches is left
    alone. *)
Lemma C4_purge_order_witness :
  (∃ before write,
     trace (getSource (sampleEnv "2023.2" (Some (machineRecord "bob" extraViews)))
                      settings (start File)).2
     = before ++ write
       ++ [ Exec ["sync"; "-k"; "//T_runner_1/...#none"] "";
            RmRF "/work/repo"; MkdirP "/work/repo";
            Exec ["clean"; "-a"; "-d"; "-e"; "//T_runner_1/..."] "";
            Exec ["sync"; "//T_runner_1/...@12345"] "";
            SetOutput "commit" "@12345" ])
  ∧ (∃ before,
       trace (getSource (sampleEnv "2023.2" (Some (machineRecord "bob" sameViews)))
                        settings (start Directory)).2
       = before
         ++ [ Exec ["clean"; "-a"; "-d"; "-e"; "//T_runner_1/..."] "";
              Exec ["sync"; "//T_runner_1/...@12345"] "";
              SetOutput "commit" "@12345" ]).
Proof.
  split.
  - destruct (reachClient (sampleEnv "2023.2" (Some (machineRecord "bob" extraViews)))
                          settings (start File))
      as [[e|[[p4 template] [existing|]]] s1] eqn:Hreach;
      try (vm_compute in Hreach; discriminate).
    pose proof Hreach as Hvalues. vm_compute in Hvalues.
    injection Hvalues as <- <- <- <-.
    destruct (C4_purge_order _ _ _ _ _ _ _ Hreach) as (Hdrift & _ & _).
    destruct Hdrift as (t & Ht & _ & Hdone & _); [by vm_compute|].
    rewrite (Hdone ltac:(by vm_compute)) in Ht. by eexists _, _.
  - destruct (reachClient (sampleEnv "2023.2" (Some (machineRecord "bob" sameViews)))
                          settings (start Directory))
      as [[e|[[p4 template] [existing|]]] s1] eqn:Hreach;
      try (vm_compute in Hreach; discriminate).
    pose proof Hreach as Hvalues. vm_compute in Hvalues.
    injection Hvalues as <- <- <- <-.
    destruct (C4_purge_order _ _ _ _ _ _ _ Hreach) as (_ & Hsame & _).
    destruct Hsame as (t & Ht & _ & Hdone); [by vm_compute|].
    rewrite (Hdone ltac:(by vm_compute)) in Ht. by eexists _.
Defined.

(** C10. A run that completes ends with the sync of "//" + the resolved
    client name + "/..." + the ref of the settings, followed at once by
    the output "commit" set to that same ref; the run sets no other
    output, and issues no command between the two. *)
Theorem C10_revision_marker (env : Env) (settings : Settings) (s0 s' : State) :
  getSource env settings s0 = (inr (), s') →
  ∃ before,
    trace s' = trace s0 ++ before
               ++ [ Exec ["sync"; "//" +:+ clientName env settings +:+ "/..."
                                  +:+ ref settings] "";
                    SetOutput "commit" (ref settings) ]
    ∧ Forall (λ e, is_output e = false) before.
Proof.
  rewrite getSource_run.
  intros ([[p4 template] existing] & s1 & Hreach & Hrest)%bind_inr.
  apply bind_inr in Hrest as (needSyncNone & s2 & Hbranch & Hcheckout).
  apply reachClient_inr in Hreach as (_ & _ & Hs1).
  destruct (emits_branch env settings p4 template existing s1) as (t2 & Ht2 & Hquiet).
  rewrite Hbranch in Ht2. simpl in Ht2.
  destruct (steps_checkOut env settings p4 needSyncNone s2) as (t3 & Ht3 & _ & Hdone).
  rewrite Hcheckout in Ht3, Hdone. simpl in Ht3, Hdone.
  destruct (Hdone () eq_refl) as [-> _].
  eexists (prepareEvents (fs s0) (repositoryPath settings)
           ++ sessionEvents settings
           ++ Exec ["clients"; "-e"; clientName env settings] ""
              :: match existing with
                 | Some _ =>
                     [Exec ["-Mj"; "-Ztag"; "client"; "-o"; clientName env settings] ""]
                 | None => []
                 end
           ++ t2
           ++ (if needSyncNone then purgeEvents env settings else [])
           ++ [Exec ["clean"; "-a"; "-d"; "-e"; "//" +:+ clientName env settings +:+ "/..."] ""]).
  split.
  - rewrite Ht3, Ht2, Hs1. unfold checkoutEvents.
    rewrite <-!(assoc_L (++)). simpl. rewrite <-!(assoc_L (++)). simpl.
    repeat f_equal.
  - rewrite !Forall_app. split_and!.
    + destruct (fs s0); by repeat constructor.
    + by repeat constructor.
    + rewrite Forall_cons, !Forall_app. split_and!; try done.
      * destruct existing; by repeat constructor.
      * destruct needSyncNone; by repeat constructor.
      * by repeat constructor.
Qed.

(** The theorem on the sample server, for a machine that has no client
    yet. *)
Lemma C10_revision_marker_witness :
  ∃ before,
    trace (getSource (sampleEnv "2023.2" None) settings (start Missing)).2
    = before ++ [ Exec ["sync"; "//T_runner_1/...@12345"] "";
                  SetOutput "commit" "@12345" ]
    ∧ Forall (λ e, is_output e = false) before.
Proof.
  destruct (getSource (sampleEnv "2023.2" None) settings (start Missing))
    as [[e|[]] s'] eqn:Hrun; [vm_compute in Hrun; discriminate|].
  destruct (C10_revision_marker _ _ _ _ Hrun) as (before & Htrace & Hquiet).
  exists before. by split.
Defined.

End SynchronizeFacts.

(** ** Drift and rebuild *)

Module DriftFacts.
Import Js JsFacts Effects PerforceCommandManager SourceProvider Spec Samples.
Import RunFacts PhaseFacts.

(** The map filled from a list of mappings with distinct depot paths holds
    exactly these mappings, on top of what it held. *)
Lemma fill_lookup (sub : PerforceMapping → string) (l : list PerforceMapping)
    (acc : gmap string string) (d c : string) :
  NoDup (depot <$> l) →
  foldl (λ map mapping, <[depot mapping := sub mapping]> map) acc l !! d = Some c
  ↔ (d, c) ∈ ((λ mapping, (depot mapping, sub mapping)) <$> l)
    ∨ ((d ∉ depot <$> l) ∧ acc !! d = Some c).
Proof.
  revert acc. induction l as [|m l IH]; intros acc Hnodup.
  - simpl. split; [intros H; right; split; [apply not_elem_of_nil|done] |].
    intros [Hin|[_ H]]; [by apply elem_of_nil in Hin|done].
  - rewrite !fmap_cons in *. apply NoDup_cons in Hnodup as [Hfresh Hnodup].
    cbn [foldl]. rewrite (IH _ Hnodup), !elem_of_cons.
    assert (Hin_fresh : ∀ c', (depot m, c') ∈ ((λ mapping, (depot mapping, sub mapping)) <$> l) → False).
    { intros c' Hin. apply Hfresh. apply list_elem_of_fmap.
      apply list_elem_of_fmap in Hin as (m' & [= Hd' _] & Hin).
      exists m'. by rewrite Hd'. }
    destruct (decide (d = depot m)) as [->|Hd].
    + rewrite lookup_insert_eq. naive_solver.
    + rewrite lookup_insert_ne by done. naive_solver.
Qed.

Lemma templateMappings_lookup (env : Env) (settings : Settings)
    (template : PerforceClient) (d c : string) :
  uniqueDepots template →
  templateMappings settings (clientName env settings) template !! d = Some c
  ↔ (d, c) ∈ normalized env settings template.
Proof.
  intros Hunique. unfold templateMappings, normalized.
  rewrite (fill_lookup _ _ _ _ _ Hunique), lookup_empty. naive_solver.
Qed.

Lemma templateMappings_None (env : Env) (settings : Settings)
    (template : PerforceClient) (d : string) :
  uniqueDepots template →
  templateMappings settings (clientName env settings) template !! d = None
  ↔ d ∉ (normalized env settings template).*1.
Proof.
  intros Hunique. rewrite eq_None_not_Some. unfold is_Some.
  split; intros Hnot Hin; apply Hnot.
  - apply list_elem_of_fmap in Hin as ([d' c] & -> & Hin).
    exists c. by apply templateMappings_lookup.
  - destruct Hin as [c Hc]. apply templateMappings_lookup in Hc; [|done].
    apply list_elem_of_fmap. by exists (d, c).
Qed.

Lemma checkMappings_spec (l : list PerforceMapping) (flag : bool)
    (map : gmap string string) :
  NoDup (depot <$> l) →
  ((foldl checkMapping (flag, map) l).1 = true
   ↔ flag = true
     ∨ Exists (λ mapping, map !! depot mapping ≠ Some (client_path mapping)) l)
  ∧ ∀ d, (foldl checkMapping (flag, map) l).2 !! d
         = if decide (d ∈ depot <$> l) then None else map !! d.
Proof.
  revert flag map. induction l as [|m l IH]; intros flag map Hnodup.
  - simpl. split; [rewrite Exists_nil; naive_solver|]. intros d.
    done.
  - rewrite fmap_cons in *. apply NoDup_cons in Hnodup as [Hfresh Hnodup].
    cbn [foldl checkMapping].
    destruct (IH (match map !! depot m with
                  | None => true
                  | Some expected =>
                      if decide (expected ≠ client_path m) then true else flag
                  end) (delete (depot m) map) Hnodup) as [Hflag Hmap].
    split.
    + rewrite Hflag, Exists_cons.
      assert (Exists (λ mapping, delete (depot m) map !! depot mapping
                                 ≠ Some (client_path mapping)) l
              ↔ Exists (λ mapping, map !! depot mapping
                                   ≠ Some (client_path mapping)) l) as ->.
      { rewrite !Exists_exists. split; intros (x & Hin & Hx); exists x;
          (split; [done|]);
          (rewrite lookup_delete_ne in *; [done|]);
          intros Heq; apply Hfresh; apply list_elem_of_fmap; by exists x. }
      destruct (map !! depot m) as [expected|]; [|naive_solver].
      case_decide; naive_solver.
    + intros d. rewrite Hmap.
      destruct (decide (d = depot m)) as [->|Hd].
      * rewrite lookup_delete_eq. rewrite (decide_True (P := _ ∈ _ :: _)) by by left.
        by case_decide.
      * rewrite lookup_delete_ne by done.
        destruct (decide (d ∈ depot <$> l)).
        -- by rewrite decide_True by by right.
        -- rewrite decide_False; [done|]. by intros [?|?]%elem_of_cons.
Qed.

Lemma normalized_depots (env : Env) (settings : Settings) (template : PerforceClient) :
  (normalized env settings template).*1 = depot <$> view template.
Proof. unfold normalized. by rewrite <-list_fmap_compose. Qed.

(** The flag computed by the code, for views with distinct depot paths. *)
Lemma rebuildClient_drift (env : Env) (settings : Settings)
    (template existing : PerforceClient) :
  uniqueDepots template → uniqueDepots existing →
  rebuildClient env settings template existing = true
  ↔ drift env settings template existing.
Proof.
  intros Htemplate Hexisting. unfold rebuildClient.
  destruct (checkMappings_spec (view existing) false
              (templateMappings settings (clientName env settings) template)
              Hexisting) as [Hflag Hrest].
  destruct (foldl checkMapping _ _) as [flag rest]. simpl in Hflag, Hrest.
  assert (Hchanged : flag = true
            ↔ extraMapping env settings template existing
              ∨ mismatchedMapping env settings template existing).
  { rewrite Hflag. unfold extraMapping, mismatchedMapping.
    rewrite !Exists_exists. split.
    - intros [[=] | (m & Hin & Hm)].
      destruct (templateMappings settings (clientName env settings) template
                  !! depot m) as [expected|] eqn:Hlook.
      + right. exists m. split; [done|].
        apply templateMappings_lookup in Hlook; [|done].
        apply Exists_exists. exists (depot m, expected). split; [done|].
        split; [done|]. simpl. congruence.
      + left. exists m. split; [done|]. by apply templateMappings_None in Hlook.
    - intros [(m & Hin & Hextra) | (m & Hin & Hmis)]; right; exists m;
        (split; [done|]).
      + apply templateMappings_None in Hextra; [|done]. by rewrite Hextra.
      + apply Exists_exists in Hmis as ([d c] & Hnorm & Hd & Hc). simpl in *.
        subst d. apply templateMappings_lookup in Hnorm; [|done].
        rewrite Hnorm. congruence. }
  assert (Hmissing : rest ≠ ∅ ↔ missingMapping env settings template existing).
  { unfold missingMapping. rewrite Exists_exists. split.
    - intros Hne. apply map_choose in Hne as (d & c & Hdc).
      rewrite Hrest in Hdc. case_decide as Hin; [done|].
      apply templateMappings_lookup in Hdc; [|done]. by exists (d, c).
    - intros ([d c] & Hnorm & Hnot) ->. simpl in Hnot.
      apply templateMappings_lookup in Hnorm; [|done].
      specialize (Hrest d). rewrite decide_False in Hrest by done.
      by rewrite lookup_empty, Hnorm in Hrest. }
  unfold drift. rewrite <-Hmissing.
  repeat case_decide; destruct flag; naive_solver.
Qed.

(** Drift looks at the view, the host and the root of the existing
    client only, and at the host name of the machine. *)
Lemma drift_ext (env env2 : Env) (settings : Settings)
    (template existing existing2 : PerforceClient) :
  hostname env2 = hostname env →
  view existing2 = view existing → host existing2 = host existing →
  root existing2 = root existing →
  drift env2 settings template existing2 ↔ drift env settings template existing.
Proof.
  intros Hname Hview Hhost Hroot.
  unfold drift, extraMapping, mismatchedMapping, missingMapping, normalized,
    clientName.
  by rewrite Hname, Hview, Hhost, Hroot.
Qed.

Lemma substitutedView_depots (env : Env) (settings : Settings)
    (template : PerforceClient) :
  depot <$> substitutedView settings (clientName env settings) template
  = depot <$> view template.
Proof. unfold substitutedView. by rewrite <-list_fmap_compose. Qed.

(** The rebuilt definition shows no drift against the template it was
    rebuilt from. *)
Lemma rebuilt_no_drift (env : Env) (settings : Settings)
    (template existing : PerforceClient) :
  uniqueDepots template →
  ¬ drift env settings template (rebuiltClient env settings template existing).
Proof.
  intros Hunique. unfold drift, extraMapping, mismatchedMapping, missingMapping.
  cbn [view host root rebuiltClient]. rewrite !Exists_exists.
  intros [(m & Hin & Hextra) | [(m & Hin & Hmis) | [([d c] & Hin & Hmiss) | [?|?]]]];
    try done.
  - apply Hextra. rewrite normalized_depots, <-(substitutedView_depots env settings).
    apply list_elem_of_fmap. by exists m.
  - apply Exists_exists in Hmis as ([d c] & Hnorm & Hd & Hc). simpl in *.
    apply list_elem_of_fmap in Hin as (x & -> & Hx). simpl in *. subst d.
    apply Hc. apply templateMappings_lookup in Hnorm; [|done].
    assert ((depot x, substitute settings (clientName env settings) x)
            ∈ normalized env settings template) as Hx'.
    { apply list_elem_of_fmap. by exists x. }
    apply templateMappings_lookup in Hx'; [|done]. congruence.
  - apply Hmiss. simpl.
    rewrite substitutedView_depots, <-(normalized_depots env settings).
    apply list_elem_of_fmap. by exists (d, c).
Qed.

(** When a rebuild is due and the owner check passes, the rebuilt
    definition is piped to the server, whatever follows. *)
Lemma write_back (env : Env) (settings : Settings) (s1 : State)
    (p4 : PerforceCommandManager.t) (template existing : PerforceClient)
    (lines : list string) :
  fs s1 = Directory →
  (truthy (owner existing) = true → owner existing = Some (authToken settings)) →
  rebuildClient env settings template existing = true →
  clientSpec (rebuiltClient env settings template existing) = inr lines →
  ∃ t, trace ((reconcile env settings p4 template existing
               ≫= checkOut env settings p4) s1).2
       = trace s1 ++ Exec ["client"; "-i"] (join newline lines) :: t.
Proof.
  intros Hfs Howner Hrebuild Hspec. rewrite bind_run. unfold reconcile.
  assert (truthy (owner existing)
          && bool_decide (owner existing ≠ Some (authToken settings)) = false)
    as ->.
  { destruct (truthy (owner existing)); [|done].
    by rewrite (Howner eq_refl), bool_decide_false by naive_solver. }
  rewrite Hrebuild. unfold editClient. rewrite Hspec, !bind_run.
  rewrite execP4_run by done.
  pose proof (exec_trace env ["client"; "-i"] (join newline lines) s1) as Hexec.
  destruct (exec env ["client"; "-i"] (join newline lines) s1) as [[e|output] s2].
  - exists []. simpl in *. by rewrite Hexec.
  - simpl in Hexec. subst s2. cbn [mret M_ret].
    destruct (steps_checkOut env settings p4 true
                (record (Exec ["client"; "-i"] (join newline lines)) s1))
      as (t & Ht & _).
    exists t. rewrite Ht. simpl. by rewrite <-(assoc_L (++)).
Qed.

(** Without a rebuild no client definition is written in the whole run. *)
Lemma no_write (env : Env) (settings : Settings) (s0 s1 : State)
    (p4 : PerforceCommandManager.t) (template existing : PerforceClient) :
  reachClient env settings s0 = (inr (p4, template, Some existing), s1) →
  rebuildClient env settings template existing = false →
  ∃ t, trace (getSource env settings s0).2 = trace s0 ++ t
       ∧ Forall (λ e, writes_definition e = false) t.
Proof.
  intros Hreach Hrebuild.
  rewrite getSource_run, (bind_inr_run _ _ _ _ _ Hreach).
  apply reachClient_inr in Hreach as (_ & _ & Hs1).
  destruct (steps_existing env settings p4 template existing s1)
    as (t & Ht & [rest Hprefix] & _).
  rewrite Hrebuild in Hprefix. simpl in Hprefix.
  eexists. rewrite Ht, Hs1, <-!(assoc_L (++)). split; [done|].
  rewrite !Forall_app. split_and!.
  - destruct (fs s0); simpl; by repeat constructor.
  - by repeat constructor.
  - by repeat constructor.
  - assert (Forall (λ e, writes_definition e = false) (t ++ rest)) as Hall.
    { rewrite <-Hprefix. by repeat constructor. }
    by apply Forall_app in Hall as [? _].
Qed.

(** The specification piped for a rebuilt definition, line by line. *)
Lemma clientSpec_rebuilt (env : Env) (settings : Settings)
    (template existing : PerforceClient) (text : string) :
  description existing = Some text →
  clientSpec (rebuiltClient env settings template existing)
  = inr ([ "Client:" +:+ tab +:+ show (client_name existing);
           "Owner:" +:+ tab +:+ show (owner existing);
           "Host:" +:+ tab +:+ hostname env;
           "Description:" ]
         ++ ((λ line, tab +:+ line) <$> split (ascii_of_nat 10) text)
         ++ [ "Root:" +:+ tab +:+ repositoryPath settings;
              "Options:" +:+ tab +:+ show (options existing);
              "SubmitOptions:" +:+ tab +:+ show (submitOptions existing);
              "LineEnd:" +:+ tab +:+ show (lineEnd existing);
              "View:" ]
         ++ ((λ mapping, tab +:+ depot mapping +:+ " "
                         +:+ substitute settings (clientName env settings) mapping)
               <$> view template)).
Proof.
  intros Htext. unfold clientSpec. cbn [description rebuiltClient].
  rewrite Htext. cbn [client_name owner host root options submitOptions lineEnd
                      view rebuiltClient show].
  unfold substitutedView. by rewrite <-list_fmap_compose.
Qed.

(** The map filled from any list of mappings holds, for each depot path,
    its last mapping. *)
Lemma fill_lookup_last (sub : PerforceMapping → string) (l : list PerforceMapping)
    (acc : gmap string string) (d c : string) :
  foldl (λ map mapping, <[depot mapping := sub mapping]> map) acc l !! d = Some c
  ↔ (∃ before after,
       (λ mapping, (depot mapping, sub mapping)) <$> l = before ++ (d, c) :: after
       ∧ d ∉ after.*1)
    ∨ ((d ∉ depot <$> l) ∧ acc !! d = Some c).
Proof.
  revert acc. induction l as [|m l IH]; intros acc.
  - simpl. split.
    + intros H. right. split; [apply not_elem_of_nil|done].
    + intros [(before & after & H & _)|[_ H]]; [by destruct before|done].
  - rewrite !fmap_cons. cbn [foldl]. rewrite IH. split.
    + intros [(before & after & Hl & Hd) | [Hd Hacc]].
      * left. exists ((depot m, sub m) :: before), after. by rewrite Hl.
      * destruct (decide (d = depot m)) as [->|Hne].
        -- rewrite lookup_insert_eq in Hacc. injection Hacc as <-.
           left. exists [], ((λ mapping, (depot mapping, sub mapping)) <$> l).
           split; [done|]. by rewrite <-list_fmap_compose.
        -- rewrite lookup_insert_ne in Hacc by done. right. split; [|done].
           by intros [?|?]%elem_of_cons.
    + intros [(before & after & Hl & Hd) | [Hd Hacc]].
      * destruct before as [|p before].
        -- injection Hl as <- <- Hl. right. split.
           ++ rewrite <-Hl, <-list_fmap_compose in Hd. done.
           ++ by rewrite lookup_insert_eq.
        -- injection Hl as _ Hl. left. by exists before, after.
      * apply not_elem_of_cons in Hd as [Hne Hd]. right. split; [done|].
        by rewrite lookup_insert_ne.
Qed.

Lemma templateMappings_expected (env : Env) (settings : Settings)
    (template : PerforceClient) (d c : string) :
  templateMappings settings (clientName env settings) template !! d = Some c
  ↔ expectedPath env settings template d c.
Proof.
  unfold templateMappings, expectedPath, normalized.
  rewrite fill_lookup_last, lookup_empty. naive_solver.
Qed.

Lemma fill_lookup_Some (sub : PerforceMapping → string) (l : list PerforceMapping)
    (acc : gmap string string) (d : string) :
  is_Some (foldl (λ map mapping, <[depot mapping := sub mapping]> map) acc l !! d)
  ↔ d ∈ depot <$> l ∨ is_Some (acc !! d).
Proof.
  revert acc. induction l as [|m l IH]; intros acc.
  - simpl. rewrite elem_of_nil. naive_solver.
  - rewrite fmap_cons. cbn [foldl]. rewrite IH, elem_of_cons.
    destruct (decide (d = depot m)) as [->|Hne].
    + rewrite lookup_insert_eq. naive_solver.
    + rewrite lookup_insert_ne by done. naive_solver.
Qed.

Lemma templateMappings_absent (env : Env) (settings : Settings)
    (template : PerforceClient) (d : string) :
  templateMappings settings (clientName env settings) template !! d = None
  ↔ d ∉ (normalized env settings template).*1.
Proof.
  rewrite normalized_depots, eq_None_not_Some. unfold templateMappings.
  rewrite fill_lookup_Some, lookup_empty. unfold is_Some. naive_solver.
Qed.

(** The loop over the existing view, whatever the view. *)
Lemma checkMappings_general (l : list PerforceMapping) (flag : bool)
    (map : gmap string string) :
  ((foldl checkMapping (flag, map) l).1 = true
   ↔ flag = true
     ∨ Exists (λ mapping, map !! depot mapping ≠ Some (client_path mapping)) l
     ∨ ¬ NoDup (depot <$> l))
  ∧ ∀ d, (foldl checkMapping (flag, map) l).2 !! d
         = if decide (d ∈ depot <$> l) then None else map !! d.
Proof.
  revert flag map. induction l as [|m l IH]; intros flag map.
  - simpl. split; [|done]. rewrite Exists_nil.
    split; [by left|]. intros [?|[[]|Hdup]]; [done|]. destruct Hdup. constructor.
  - rewrite fmap_cons. cbn [foldl checkMapping].
    destruct (IH (match map !! depot m with
                  | None => true
                  | Some expected =>
                      if decide (expected ≠ client_path m) then true else flag
                  end) (delete (depot m) map)) as [Hflag Hmap].
    split.
    + rewrite Hflag, Exists_cons, NoDup_cons.
      assert (Exists (λ mapping, delete (depot m) map !! depot mapping
                                 ≠ Some (client_path mapping)) l
              ↔ Exists (λ mapping, map !! depot mapping
                                   ≠ Some (client_path mapping)) l
                ∨ depot m ∈ depot <$> l) as ->.
      { rewrite !Exists_exists. split.
        - intros (x & Hin & Hx).
          destruct (decide (depot x = depot m)) as [Heq|Hne].
          + right. apply list_elem_of_fmap. by exists x.
          + left. exists x. split; [done|]. by rewrite lookup_delete_ne in Hx.
        - intros [(x & Hin & Hx) | Hin].
          + exists x. split; [done|].
            destruct (decide (depot x = depot m)) as [Heq|Hne].
            * by rewrite Heq, lookup_delete_eq.
            * by rewrite lookup_delete_ne.
          + apply list_elem_of_fmap in Hin as (x & Heq & Hin).
            exists x. split; [done|]. by rewrite <-Heq, lookup_delete_eq. }
      assert (¬ ((depot m ∉ depot <$> l) ∧ NoDup (depot <$> l))
              ↔ depot m ∈ depot <$> l ∨ ¬ NoDup (depot <$> l)) as ->.
      { destruct (decide (depot m ∈ depot <$> l));
          destruct (decide (NoDup (depot <$> l))); naive_solver. }
      destruct (map !! depot m) as [expected|]; [|naive_solver].
      case_decide; naive_solver.
    + intros d. rewrite Hmap.
      destruct (decide (d = depot m)) as [->|Hd].
      * rewrite lookup_delete_eq. rewrite (decide_True (P := _ ∈ _ :: _)) by by left.
        by case_decide.
      * rewrite lookup_delete_ne by done.
        destruct (decide (d ∈ depot <$> l)).
        -- by rewrite decide_True by by right.
        -- rewrite decide_False; [done|]. by intros [?|?]%elem_of_cons.
Qed.

(** The flag computed by the code, for any two views. *)
Lemma rebuildClient_condition (env : Env) (settings : Settings)
    (template existing : PerforceClient) :
  rebuildClient env settings template existing = true
  ↔ rebuildCondition env settings template existing.
Proof.
  unfold rebuildClient.
  destruct (checkMappings_general (view existing) false
              (templateMappings settings (clientName env settings) template))
    as [Hflag Hrest].
  destruct (foldl checkMapping _ _) as [flag rest]. simpl in Hflag, Hrest.
  assert (Hchanged : flag = true
            ↔ extraMapping env settings template existing
              ∨ mismatchedLastMapping env settings template existing
              ∨ ¬ uniqueDepots existing).
  { rewrite Hflag. unfold extraMapping, mismatchedLastMapping, uniqueDepots.
    rewrite !Exists_exists. split.
    - intros [[=] | [(m & Hin & Hm) | Hdup]]; [|right; by right].
      destruct (templateMappings settings (clientName env settings) template
                  !! depot m) as [expected|] eqn:Hlook.
      + right. left. exists m. split; [done|]. exists expected.
        split; [by apply templateMappings_expected|]. congruence.
      + left. exists m. split; [done|]. by apply templateMappings_absent.
    - intros [(m & Hin & Hextra) | [(m & Hin & c & Hc & Hne) | Hdup]].
      + right. left. exists m. split; [done|].
        apply templateMappings_absent in Hextra. by rewrite Hextra.
      + right. left. exists m. split; [done|].
        apply templateMappings_expected in Hc. rewrite Hc. congruence.
      + right. by right. }
  assert (Hmissing : rest ≠ ∅ ↔ missingMapping env settings template existing).
  { unfold missingMapping. rewrite Exists_exists. split.
    - intros Hne. apply map_choose in Hne as (d & c & Hdc).
      rewrite Hrest in Hdc. case_decide as Hin; [done|].
      apply templateMappings_expected in Hdc as (before & after & Hl & _).
      exists (d, c). split; [|done]. rewrite Hl. apply elem_of_app. right. by left.
    - intros ([d c] & Hnorm & Hnot) ->. simpl in Hnot.
      assert (d ∈ (normalized env settings template).*1) as Hd.
      { apply list_elem_of_fmap. by exists (d, c). }
      specialize (Hrest d). rewrite decide_False in Hrest by done.
      rewrite lookup_empty in Hrest. symmetry in Hrest.
      by apply templateMappings_absent in Hrest. }
  unfold rebuildCondition. rewrite <-Hmissing.
  repeat case_decide; destruct flag; naive_solver.
Qed.


(** C3. For an existing workspace definition the code decides on a
    rebuild exactly when one of these holds: a depot path of the existing
    view that the template lacks, a depot path whose client path is not
    the substituted client path of the template's last mapping of it, a
    depot path that occurs twice in the existing view, a depot path of the
    template that the existing view lacks, a host mismatch, a root
    mismatch. Where no depot path occurs twice in the template nor in the
    existing view these are the five drift conditions. When one holds, and
    the owner check is passed, the first thing the run does next is to
    pipe the rebuilt definition, whose text is given line by line; a
    fetched definition without description stops the run there with
    nothing written. When none holds the whole run writes no client
    definition. If no depot path occurs twice in the template, the
    rebuilt definition meets none of the conditions, so that a later run
    on the same machine, with the template unchanged and the client as the
    rebuild left it, writes no client definition either. *)
Theorem C3_rebuild_iff_drift (env : Env) (settings : Settings) (s0 s1 : State)
    (p4 : PerforceCommandManager.t) (template existing : PerforceClient) :
  reachClient env settings s0 = (inr (p4, template, Some existing), s1) →
  let rebuilt := rebuiltClient env settings template existing in
  (rebuildClient env settings template existing = true
   ↔ rebuildCondition env settings template existing)
  ∧ (uniqueDepots template → uniqueDepots existing →
       (rebuildCondition env settings template existing
        ↔ drift env settings template existing))
  ∧ (rebuildCondition env settings template existing →
       (truthy (owner existing) = true →
        owner existing = Some (authToken settings)) →
       match description existing with
       | Some text =>
           ∃ t, trace (getSource env settings s0).2
                = trace s1
                  ++ Exec ["client"; "-i"]
                       (join newline
                          ([ "Client:" +:+ tab +:+ show (client_name existing);
                             "Owner:" +:+ tab +:+ show (owner existing);
                             "Host:" +:+ tab +:+ hostname env;
                             "Description:" ]
                           ++ ((λ line, tab +:+ line)
                                 <$> split (ascii_of_nat 10) text)
                           ++ [ "Root:" +:+ tab +:+ repositoryPath settings;
                                "Options:" +:+ tab +:+ show (options existing);
                                "SubmitOptions:" +:+ tab
                                  +:+ show (submitOptions existing);
                                "LineEnd:" +:+ tab +:+ show (lineEnd existing);
                                "View:" ]
                           ++ ((λ mapping,
                                  tab +:+ depot mapping +:+ " "
                                  +:+ substitute settings (clientName env settings)
                                        mapping)
                                 <$> view template)))
                     :: t
       | None => getSource env settings s0 = (inl TypeError, s1)
       end)
  ∧ (¬ rebuildCondition env settings template existing →
       ∃ t, trace (getSource env settings s0).2 = trace s0 ++ t
            ∧ Forall (λ e, writes_definition e = false) t)
  ∧ (uniqueDepots template →
       ¬ rebuildCondition env settings template rebuilt
       ∧ ∀ env2 s0' s1' p4' existing',
           hostname env2 = hostname env →
           reachClient env2 settings s0'
           = (inr (p4', template, Some existing'), s1') →
           view existing' = view rebuilt →
           host existing' = host rebuilt →
           root existing' = root rebuilt →
           ∃ t, trace (getSource env2 settings s0').2 = trace s0' ++ t
                ∧ Forall (λ e, writes_definition e = false) t).
Proof.
  intros Hreach rebuilt.
  pose proof (rebuildClient_condition env settings template existing) as Hiff.
  assert (Hsettled : uniqueDepots template → uniqueDepots rebuilt).
  { intros Htemplate. unfold uniqueDepots, rebuilt. cbn [view rebuiltClient].
    by rewrite substitutedView_depots. }
  split_and!.
  - done.
  - intros Htemplate Hexisting.
    by rewrite <-Hiff, (rebuildClient_drift env settings template existing).
  - intros Hcondition Howner. apply Hiff in Hcondition.
    rewrite getSource_run, (bind_inr_run _ _ _ _ _ Hreach).
    destruct (description existing) as [text|] eqn:Htext.
    + apply reachClient_inr in Hreach as (Hfs & _ & _).
      apply write_back; [done | done | done |].
      by apply clientSpec_rebuilt.
    + apply bind_inl. unfold reconcile.
      assert (truthy (owner existing)
              && bool_decide (owner existing ≠ Some (authToken settings)) = false)
        as ->.
      { destruct (truthy (owner existing)); [|done].
        by rewrite (Howner eq_refl), bool_decide_false by naive_solver. }
      rewrite Hcondition. apply bind_inl. unfold editClient, clientSpec.
      cbn [description rebuiltClient]. by rewrite Htext.
  - intros Hnone. apply (no_write env settings s0 s1 p4 template existing);
      [done|]. apply not_true_is_false. by rewrite Hiff.
  - intros Htemplate. split.
    + rewrite <-(rebuildClient_condition env settings template rebuilt).
      rewrite rebuildClient_drift; [by apply rebuilt_no_drift | done | by apply Hsettled].
    + intros env2 s0' s1' p4' existing' Hname Hreach' Hview Hhost Hroot.
      apply (no_write env2 settings s0' s1' p4' template existing'); [done|].
      apply not_true_is_false. rewrite rebuildClient_drift; [|done|].
      * rewrite (drift_ext env env2 settings template rebuilt existing') by done.
        by apply rebuilt_no_drift.
      * unfold uniqueDepots. rewrite Hview. by apply Hsettled.
Qed.

(** C9. When a rebuild is due, the definition that is written back is the
    existing one with its host, root and view replaced: its name, owner,
    description, options, submit options and line-end setting are those
    that were fetched. The text piped to the server carries them
    unchanged, and it is the only client definition the run writes. *)
Theorem C9_rebuild_frame (env : Env) (settings : Settings) (s0 s1 : State)
    (p4 : PerforceCommandManager.t) (template existing : PerforceClient) :
  reachClient env settings s0 = (inr (p4, template, Some existing), s1) →
  rebuildClient env settings template existing = true →
  let written := rebuiltClient env settings template existing in
  (client_name written = client_name existing
   ∧ owner written = owner existing
   ∧ description written = description existing
   ∧ options written = options existing
   ∧ submitOptions written = submitOptions existing
   ∧ lineEnd written = lineEnd existing)
  ∧ (host written = Some (hostname env)
     ∧ root written = Some (repositoryPath settings)
     ∧ view written = substitutedView settings (clientName env settings) template)
  ∧ ∃ t, trace (getSource env settings s0).2 = trace s1 ++ t
      ∧ (∀ input, Exec ["client"; "-i"] input ∈ t →
           ∃ text, description existing = Some text
             ∧ input = join newline
                 ([ "Client:" +:+ tab +:+ show (client_name existing);
                    "Owner:" +:+ tab +:+ show (owner existing);
                    "Host:" +:+ tab +:+ hostname env;
                    "Description:" ]
                  ++ ((λ line, tab +:+ line) <$> split (ascii_of_nat 10) text)
                  ++ [ "Root:" +:+ tab +:+ repositoryPath settings;
                       "Options:" +:+ tab +:+ show (options existing);
                       "SubmitOptions:" +:+ tab +:+ show (submitOptions existing);
                       "LineEnd:" +:+ tab +:+ show (lineEnd existing);
                       "View:" ]
                  ++ ((λ mapping, tab +:+ depot mapping +:+ " "
                                  +:+ substitute settings (clientName env settings) mapping)
                        <$> view template)))
      ∧ ((truthy (owner existing) = true →
          owner existing = Some (authToken settings)) →
         is_Some (description existing) →
         ∃ input, Exec ["client"; "-i"] input ∈ t).
Proof.
  intros Hreach Hrebuild written. split; [done|]. split; [done|].
  subst written.
  pose proof Hreach as (Hfs & _ & _)%reachClient_inr.
  assert (Hrun : getSource env settings s0
                 = (reconcile env settings p4 template existing
                    ≫= checkOut env settings p4) s1).
  { by rewrite getSource_run, (bind_inr_run _ _ _ _ _ Hreach). }
  destruct (steps_existing env settings p4 template existing s1)
    as (t & Ht & [rest Hprefix] & _).
  rewrite <-Hrun in Ht. rewrite Hrebuild in Hprefix.
  exists t. split_and!; [done| |].
  - intros input Hin.
    assert (Exec ["client"; "-i"] input
            ∈ (writeEvents (rebuiltClient env settings template existing)
               ++ purgeEvents env settings)
              ++ checkoutEvents env settings) as Hfull.
    { rewrite Hprefix. apply elem_of_app. by left. }
    unfold purgeEvents, checkoutEvents in Hfull.
    rewrite !elem_of_app, !elem_of_cons, elem_of_nil in Hfull.
    destruct Hfull as [[Hwrite | Hpurge] | Hcheck]; [|naive_solver..].
    unfold writeEvents in Hwrite.
    destruct (description existing) as [text|] eqn:Htext.
    + exists text. split; [done|].
      rewrite (clientSpec_rebuilt env settings template existing text Htext)
        in Hwrite.
      apply list_elem_of_singleton in Hwrite. by injection Hwrite.
    + unfold clientSpec in Hwrite. cbn [description rebuiltClient] in Hwrite.
      rewrite Htext in Hwrite. by apply elem_of_nil in Hwrite.
  - intros Howner [text Htext].
    pose proof (clientSpec_rebuilt env settings template existing text Htext)
      as Hspec.
    destruct (write_back env settings s1 p4 template existing _
                Hfs Howner Hrebuild Hspec) as (t' & Ht').
    rewrite <-Hrun, Ht in Ht'. apply (inj (app (trace s1))) in Ht'.
    eexists. rewrite Ht'. by left.
Qed.

(** The theorem on the sample server. A client with an extra mapping is
    rebuilt: the definition is piped right after the reads. A client that
    matches the template is left alone, and so is, on a later run, the
    client as the rebuild of the first run left it. *)
Lemma C3_rebuild_iff_drift_witness :
  trace (getSource (sampleEnv "2023.2" (Some (machineRecord "bob" extraViews)))
                   settings (start Directory)).2
  !! 5%nat
  = Some (Exec ["client"; "-i"]
            (join newline
               [ "Client:" +:+ tab +:+ "T_runner_1";
                 "Owner:" +:+ tab +:+ "bob";
                 "Host:" +:+ tab +:+ "runner-1";
                 "Description:";
                 tab +:+ "Build template instance for runner-1";
                 "Root:" +:+ tab +:+ "/work/repo";
                 "Options:" +:+ tab +:+ "noallwrite clobber";
                 "SubmitOptions:" +:+ tab +:+ "submitunchanged";
                 "LineEnd:" +:+ tab +:+ "local";
                 "View:";
                 tab +:+ "//depot/a/... //T_runner_1/a/...";
                 tab +:+ "//depot/b/... //T_runner_1/b/..." ]))
  ∧ Forall (λ e, writes_definition e = false)
           (trace (getSource (sampleEnv "2023.2" (Some (machineRecord "bob" sameViews)))
                             settings (start Directory)).2)
  ∧ Forall (λ e, writes_definition e = false)
           (trace (getSource (sampleEnv "2023.2" (Some (machineRecord "bob" sameViews)))
                             settings (start File)).2).
Proof.
  split_and!.
  - destruct (reachClient (sampleEnv "2023.2" (Some (machineRecord "bob" extraViews)))
                          settings (start Directory))
      as [[e|[[p4 template] [existing|]]] s1] eqn:Hreach;
      try (vm_compute in Hreach; discriminate).
    pose proof Hreach as Hvalues. vm_compute in Hvalues.
    injection Hvalues as <- <- <- <-.
    destruct (C3_rebuild_iff_drift _ _ _ _ _ _ _ Hreach) as (Hiff & _ & Hwrite & _).
    simpl in Hwrite. destruct Hwrite as (t & Ht).
    + apply Hiff. by vm_compute.
    + intros _. by vm_compute.
    + rewrite Ht. by vm_compute.
  - destruct (reachClient (sampleEnv "2023.2" (Some (machineRecord "bob" sameViews)))
                          settings (start Directory))
      as [[e|[[p4 template] [existing|]]] s1] eqn:Hreach;
      try (vm_compute in Hreach; discriminate).
    pose proof Hreach as Hvalues. vm_compute in Hvalues.
    injection Hvalues as <- <- <- <-.
    destruct (C3_rebuild_iff_drift _ _ _ _ _ _ _ Hreach) as (Hiff & _ & _ & Hquiet & _).
    destruct Hquiet as (t & Ht & Hall).
    + rewrite <-Hiff. by vm_compute.
    + rewrite Ht. exact Hall.
  - (* the first run rebuilds the client with the extra mapping ... *)
    destruct (reachClient (sampleEnv "2023.2" (Some (machineRecord "bob" extraViews)))
                          settings (start Directory))
      as [[e|[[p4 template] [existing|]]] s1] eqn:Hreach;
      try (vm_compute in Hreach; discriminate).
    pose proof Hreach as Hvalues. vm_compute in Hvalues.
    injection Hvalues as <- <- <- <-.
    destruct (C3_rebuild_iff_drift _ _ _ _ _ _ _ Hreach) as (_ & _ & _ & _ & Hlater).
    destruct Hlater as [_ Hlater];
      [by apply (bool_decide_unpack _); vm_compute|].
    (* ... and the later run finds it as the rebuild left it *)
    destruct (reachClient (sampleEnv "2023.2" (Some (machineRecord "bob" sameViews)))
                          settings (start File))
      as [[e|[[p4' template'] [existing'|]]] s1'] eqn:Hreach';
      try (vm_compute in Hreach'; discriminate).
    pose proof Hreach' as Hvalues. vm_compute in Hvalues.
    injection Hvalues as <- <- <- <-.
    destruct (Hlater (sampleEnv "2023.2" (Some (machineRecord "bob" sameViews)))
                _ _ _ _ eq_refl Hreach') as (t & Ht & Hall);
      [by vm_compute | by vm_compute | by vm_compute |].
    rewrite Ht. exact Hall.
Defined.

(** Against the claim as it was stated. A client whose view names one
    depot path twice, with no extra, mismatched or missing depot path and
    with host and root in place, is rebuilt and purged all the same: the
    second occurrence no longer finds its key in the map. A template that
    names one depot path twice gives a drift that is not seen (the client
    holds the last mapping, the first one differs), and a rebuilt
    definition that is rebuilt again on every run. *)
Lemma C3_counterexample :
  let env := sampleEnv "2023.2"
               (Some (machineRecord "bob"
                        (sameViews
                         ++ [("View2", "//depot/a/... //T_runner_1/a/...")]))) in
  let twice :=
    {| host := None; client_name := Some "T"; description := Some "";
       options := None; submitOptions := None; lineEnd := None;
       owner := None; root := None;
       view := [ {| depot := "//depot/a/..."; client_path := "//T/a/..." |};
                 {| depot := "//depot/a/..."; client_path := "//T/b/..." |} ] |} in
  let last :=
    {| host := Some "runner-1"; client_name := Some "T_runner_1";
       description := Some ""; options := None; submitOptions := None;
       lineEnd := None; owner := Some "bob"; root := Some "/work/repo";
       view := [ {| depot := "//depot/a/..."; client_path := "//T_runner_1/b/..." |} ] |} in
  (∃ p4 template existing s1,
     reachClient env settings (start Directory)
     = (inr (p4, template, Some existing), s1)
     ∧ ¬ drift env settings template existing
     ∧ trace (getSource env settings (start Directory)).2
       = trace s1
         ++ [ Exec ["client"; "-i"]
                (join newline
                   [ "Client:" +:+ tab +:+ "T_runner_1";
                     "Owner:" +:+ tab +:+ "bob";
                     "Host:" +:+ tab +:+ "runner-1";
                     "Description:";
                     tab +:+ "Build template instance for runner-1";
                     "Root:" +:+ tab +:+ "/work/repo";
                     "Options:" +:+ tab +:+ "noallwrite clobber";
                     "SubmitOptions:" +:+ tab +:+ "submitunchanged";
                     "LineEnd:" +:+ tab +:+ "local";
                     "View:";
                     tab +:+ "//depot/a/... //T_runner_1/a/...";
                     tab +:+ "//depot/b/... //T_runner_1/b/..." ]);
              Exec ["sync"; "-k"; "//T_runner_1/...#none"] "";
              RmRF "/work/repo"; MkdirP "/work/repo";
              Exec ["clean"; "-a"; "-d"; "-e"; "//T_runner_1/..."] "";
              Exec ["sync"; "//T_runner_1/...@12345"] "";
              SetOutput "commit" "@12345" ])
  ∧ (drift env settings twice last
     ∧ rebuildClient env settings twice last = false)
  ∧ rebuildClient env settings twice (rebuiltClient env settings twice last) = true.
Proof.
  intros env twice last. split_and!.
  - destruct (reachClient env settings (start Directory))
      as [[e|[[p4 template] [existing|]]] s1] eqn:Hreach;
      try (vm_compute in Hreach; discriminate).
    pose proof Hreach as Hvalues. vm_compute in Hvalues.
    injection Hvalues as <- <- <- <-.
    eexists _, _, _, _. split; [reflexivity|]. split.
    + apply (bool_decide_unpack _). by vm_compute.
    + by vm_compute.
  - apply (bool_decide_unpack _). by vm_compute.
  - by vm_compute.
  - by vm_compute.
Qed.

(** Outside the data model: a view that names one depot path twice is
    rebuilt although none of the five conditions holds, since the second
    occurrence no longer finds its key in the map. *)
Lemma repeated_depot_path_rebuilds :
  let env := sampleEnv "2023.2" None in
  let template :=
    {| host := None; client_name := Some "T"; description := Some "";
       options := None; submitOptions := None; lineEnd := None;
       owner := None; root := None;
       view := [ {| depot := "//depot/a/..."; client_path := "//T/a/..." |} ] |} in
  let existing :=
    {| host := Some "runner-1"; client_name := Some "T_runner_1";
       description := Some ""; options := None; submitOptions := None;
       lineEnd := None; owner := Some "bob"; root := Some "/work/repo";
       view := [ {| depot := "//depot/a/..."; client_path := "//T_runner_1/a/..." |};
                 {| depot := "//depot/a/..."; client_path := "//T_runner_1/a/..." |} ] |} in
  rebuildClient env settings template existing = true
  ∧ ¬ drift env settings template existing
  ∧ ¬ uniqueDepots existing.
Proof.
  simpl. split_and!; [by vm_compute | |]; apply (bool_decide_unpack _); by vm_compute.
Qed.

(** The theorem on the sample server: the owner "bob" and the other
    fields of the fetched client are in the text that is piped. *)
Lemma C9_rebuild_frame_witness :
  ∃ before after,
    trace (getSource (sampleEnv "2023.2" (Some (machineRecord "bob" extraViews)))
                     settings (start Directory)).2
    = before
      ++ Exec ["client"; "-i"]
           (join newline
              [ "Client:" +:+ tab +:+ "T_runner_1";
                "Owner:" +:+ tab +:+ "bob";
                "Host:" +:+ tab +:+ "runner-1";
                "Description:";
                tab +:+ "Build template instance for runner-1";
                "Root:" +:+ tab +:+ "/work/repo";
                "Options:" +:+ tab +:+ "noallwrite clobber";
                "SubmitOptions:" +:+ tab +:+ "submitunchanged";
                "LineEnd:" +:+ tab +:+ "local";
                "View:";
                tab +:+ "//depot/a/... //T_runner_1/a/...";
                tab +:+ "//depot/b/... //T_runner_1/b/..." ])
         :: after.
Proof.
  destruct (reachClient (sampleEnv "2023.2" (Some (machineRecord "bob" extraViews)))
                        settings (start Directory))
    as [[e|[[p4 template] [existing|]]] s1] eqn:Hreach;
    try (vm_compute in Hreach; discriminate).
  pose proof Hreach as Hvalues. vm_compute in Hvalues.
  injection Hvalues as <- <- <- <-.
  destruct (C9_rebuild_frame _ _ _ _ _ _ _ Hreach) as (_ & _ & t & Ht & Honly & Hsome);
    [by vm_compute|].
  destruct Hsome as [input Hin]; [intros _; by vm_compute | by eexists |].
  destruct (Honly input Hin) as (text & Htext & Hinput).
  apply list_elem_of_split in Hin as (t1 & t2 & ->).
  eexists _, t2. rewrite Ht, (assoc_L (++)). f_equal. f_equal.
  vm_compute in Htext. injection Htext as <-. rewrite Hinput.
  by vm_compute.
Defined.

End DriftFacts.

(** * Further properties *)

(** ** The order of versions *)

Module VersionOrderFacts.
Import Js JsFacts PerforceVersion Spec Vocabulary VersionFacts.

Lemma decimal_value_from_all (s : string) (acc n : Z) :
  decimal_value_from acc s = Some n → all is_digit s = true.
Proof.
  revert acc. induction s as [|c s IH]; intros acc; simpl; [done|].
  destruct (is_digit c); [|done]. apply IH.
Qed.

(** Below 2^53 a group of digits converts to the integer it denotes. *)
Lemma Number_exact (s : string) (n : Z) :
  decimal_value s = Some n → n < 2 ^ 53 → Number (Some s) = Num n.
Proof.
  intros Hs Hn. unfold Number. rewrite Hs. unfold round_double.
  by rewrite (proj2 (Z.ltb_lt _ _) Hn).
Qed.

Lemma new_exact (d1 d2 : string) (x1 x2 : Z) :
  d1 ≠ "" → d2 ≠ "" →
  decimal_value d1 = Some x1 → decimal_value d2 = Some x2 →
  x1 < 2 ^ 53 → x2 < 2 ^ 53 →
  new (Some (d1 +:+ "." +:+ d2)) = {| major := Num x1; minor := Num x2 |}.
Proof.
  intros Hne1 Hne2 H1 H2 Hx1 Hx2.
  rewrite (new_matched _ d1 (Some d2)).
  - by rewrite (Number_exact _ _ H1 Hx1), (Number_exact _ _ H2 Hx2).
  - apply match_version_Some. exists d2.
    split_and!; [done | done | by eapply decimal_value_from_all
                | by eapply decimal_value_from_all | by destruct d2].
Qed.

(** X1. Parsed versions are compared as pairs of numbers, major first:
    a version of two groups of digits passes a minimum of two groups of
    digits exactly when its major is greater, or the majors are equal and
    its minor is not less. Leading zeros do not count; the groups are read
    as numbers, exactly so below 2^53. *)
Theorem checkMinimum_lexicographic (a1 a2 b1 b2 : string) (x1 x2 y1 y2 : Z) :
  a1 ≠ "" → a2 ≠ "" → b1 ≠ "" → b2 ≠ "" →
  decimal_value a1 = Some x1 → decimal_value a2 = Some x2 →
  decimal_value b1 = Some y1 → decimal_value b2 = Some y2 →
  x1 < 2 ^ 53 → x2 < 2 ^ 53 → y1 < 2 ^ 53 → y2 < 2 ^ 53 →
  checkMinimum (new (Some (a1 +:+ "." +:+ a2))) (new (Some (b1 +:+ "." +:+ b2)))
  = inr (bool_decide (y1 < x1 ∨ (x1 = y1 ∧ y2 ≤ x2))).
Proof.
  intros ? ? ? ? Ha1 Ha2 Hb1 Hb2 ? ? ? ?.
  rewrite (new_exact a1 a2 x1 x2), (new_exact b1 b2 y1 y2) by done.
  unfold checkMinimum, isValid. simpl.
  compare_numbers; simpl; f_equal; symmetry;
    (apply bool_decide_eq_true_2 || apply bool_decide_eq_false_2); lia.
Qed.

Lemma checkMinimum_lexicographic_witness :
  checkMinimum (new (Some "2023.10")) (new (Some "2023.9")) = inr true
  ∧ checkMinimum (new (Some "0999.1")) (new (Some "1000.0")) = inr false.
Proof.
  split.
  - apply (checkMinimum_lexicographic "2023" "10" "2023" "9" 2023 10 2023 9);
      done || reflexivity.
  - apply (checkMinimum_lexicographic "0999" "1" "1000" "0" 999 1 1000 0);
      done || reflexivity.
Defined.

(** X2. On versions whose components are both set the check is a total
    preorder. *)
Theorem checkMinimum_preorder :
  (∀ a, fullySet a → atLeast a a)
  ∧ (∀ a b, fullySet a → fullySet b → atLeast a b ∨ atLeast b a)
  ∧ (∀ a b c, fullySet a → fullySet b → fullySet c →
       atLeast a b → atLeast b c → atLeast a c)
  ∧ (∀ a b, fullySet a → fullySet b → atLeast a b → atLeast b a →
       major a = major b ∧ minor a = minor b).
Proof.
  unfold fullySet, atLeast, checkMinimum, isValid. split_and!.
  - intros [[|x|] [|p|]]; simpl; intros [? ?]; try done; compare_numbers.
  - intros [[|x|] [|p|]] [[|y|] [|q|]]; simpl; intros [? ?] [? ?]; try done;
      compare_numbers; try (by left); try (by right).
  - intros [[|x|] [|p|]] [[|y|] [|q|]] [[|z|] [|r|]]; simpl;
      intros [? ?] [? ?] [? ?]; try done; intros; compare_numbers.
  - intros [[|x|] [|p|]] [[|y|] [|q|]]; simpl; intros [? ?] [? ?]; try done;
      intros; compare_numbers; split; f_equal; lia.
Qed.

(** The theorem at "2023.2" and "2021.1". *)
Lemma checkMinimum_preorder_witness :
  atLeast (new (Some "2023.2")) (new (Some "2023.2"))
  ∧ (atLeast (new (Some "2023.2")) (new (Some "2021.1"))
     ∨ atLeast (new (Some "2021.1")) (new (Some "2023.2"))).
Proof.
  destruct checkMinimum_preorder as (Hrefl & Htotal & _).
  split; [apply Hrefl | apply Htotal]; by vm_compute.
Defined.

End VersionOrderFacts.

(** ** The command manager *)

Module SessionFacts.
Import Js JsFacts Effects PerforceCommandManager SourceProvider Spec Samples.
Import VersionFacts ClientFacts RunFacts PhaseFacts Vocabulary.

(** X3. A command manager exists only with a version read from the banner
    of a [p4 -V] run that exited with 0, and both components of that
    version are numbers. *)
Theorem createCommandManager_inr (env : Env) (directory : string)
    (s s' : State) (p4 : PerforceCommandManager.t) :
  createCommandManager env directory s = (inr p4, s') →
  workingDirectory p4 = directory
  ∧ fullySet (perforceVersion p4)
  ∧ s' = record (Exec ["-V"] "") s
  ∧ ∃ out v, p4_exe env (trace s) (p4Env s) ["-V"] "" = (0, out)
      ∧ match_rev out = Some v
      ∧ perforceVersion p4 = PerforceVersion.new (Some v).
Proof.
  unfold createCommandManager. intros (output & s1 & Hexec & H)%bind_inr.
  apply execP4_inr in Hexec as (Hfs & -> & Hexe).
  destruct (match_rev (stdout output)) as [v|] eqn:Hv; [|done].
  pose proof (match_rev_valid _ _ Hv) as Hvalid. rewrite Hvalid in H.
  injection H as <- <-. split_and!; [done | | done | by eauto].
  apply match_rev_Some in Hv as (d1 & d2 & -> & Hne1 & Hne2 & H1 & H2).
  rewrite (new_matched _ d1 (Some d2)).
  - split; cbn [PerforceVersion.major PerforceVersion.minor];
      by apply Number_digits.
  - apply match_version_Some. exists d2. by destruct d2.
Qed.
Lemma strip_prefix_Some (p s r : string) :
  strip_prefix p s = Some r → s = p +:+ r.
Proof.
  revert s. induction p as [|a p IH]; intros [|b s]; simpl; try done.
  - by intros [= <-].
  - by intros [= <-].
  - case_decide as Hab; [|done]. subst b. intros H. by rewrite (IH _ H).
Qed.

Lemma strip_prefix_app (p r : string) : strip_prefix p (p +:+ r) = Some r.
Proof.
  induction p as [|a p IH]; [by destruct r|].
  rewrite string_app_cons. simpl. by rewrite decide_True.
Qed.

Lemma run1_spec (p : ascii → bool) (s run rest : string) :
  run1 p s = Some (run, rest) →
  s = run +:+ rest ∧ run ≠ "" ∧ all p run = true.
Proof.
  unfold run1. destruct (span p s) as [r rest'] eqn:Hspan.
  destruct (span_spec _ _ _ _ Hspan) as (-> & Hall & _).
  destruct r; [done|]. by intros [= <- <-].
Qed.

Lemma run1_app (p : ascii → bool) (run rest : string) :
  run ≠ "" → all p run = true →
  match rest with "" => True | String c _ => p c = false end →
  run1 p (run +:+ rest) = Some (run, rest).
Proof.
  intros Hne Hall Hrest. unfold run1. rewrite (span_app _ _ _ Hall Hrest).
  by destruct run.
Qed.

Lemma match_rev_here_shape (s v : string) :
  match_rev_here s = Some v →
  ∃ c word d1 d2 build after,
    s = "Rev" +:+ String c (" P4/" +:+ word +:+ "/" +:+ d1 +:+ "." +:+ d2
                            +:+ "/" +:+ build +:+ " " +:+ after)
    ∧ is_line_terminator c = false
    ∧ word ≠ "" ∧ all is_word word = true
    ∧ d1 ≠ "" ∧ all is_digit d1 = true
    ∧ d2 ≠ "" ∧ all is_digit d2 = true
    ∧ build ≠ "" ∧ all is_digit build = true
    ∧ v = d1 +:+ "." +:+ d2.
Proof.
  unfold match_rev_here. intros H.
  destruct (strip_prefix "Rev" s) as [r0|] eqn:H0;
    cbn [mbind option_bind] in H; [|done].
  destruct r0 as [|c r1]; [done|].
  destruct (is_line_terminator c) eqn:Hc; [done|].
  destruct (strip_prefix " P4/" r1) as [r2|] eqn:H1;
    cbn [mbind option_bind] in H; [|done].
  destruct (run1 is_word r2) as [[word r3]|] eqn:H2;
    cbn [mbind option_bind] in H; [|done].
  destruct (strip_prefix "/" r3) as [r4|] eqn:H3;
    cbn [mbind option_bind] in H; [|done].
  destruct (run1 is_digit r4) as [[d1 r5]|] eqn:H4;
    cbn [mbind option_bind] in H; [|done].
  destruct (strip_prefix "." r5) as [r6|] eqn:H5;
    cbn [mbind option_bind] in H; [|done].
  destruct (run1 is_digit r6) as [[d2 r7]|] eqn:H6;
    cbn [mbind option_bind] in H; [|done].
  destruct (strip_prefix "/" r7) as [r8|] eqn:H7;
    cbn [mbind option_bind] in H; [|done].
  destruct (run1 is_digit r8) as [[build r9]|] eqn:H8;
    cbn [mbind option_bind] in H; [|done].
  destruct (strip_prefix " " r9) as [after|] eqn:H9;
    cbn [mbind option_bind] in H; [|done].
  injection H as <-.
  apply strip_prefix_Some in H0, H1, H3, H5, H7, H9.
  apply run1_spec in H2 as (? & ? & ?), H4 as (? & ? & ?),
    H6 as (? & ? & ?), H8 as (? & ? & ?).
  subst. exists c, word, d1, d2, build, after.
  split_and!; done.
Qed.

Lemma match_rev_here_complete (c : ascii) (word d1 d2 build after : string) :
  is_line_terminator c = false →
  word ≠ "" → all is_word word = true →
  d1 ≠ "" → all is_digit d1 = true →
  d2 ≠ "" → all is_digit d2 = true →
  build ≠ "" → all is_digit build = true →
  match_rev_here ("Rev" +:+ String c (" P4/" +:+ word +:+ "/" +:+ d1 +:+ "."
                    +:+ d2 +:+ "/" +:+ build +:+ " " +:+ after))
  = Some (d1 +:+ "." +:+ d2).
Proof.
  intros Hc ? Hword ? H1 ? H2 ? Hbuild. unfold match_rev_here.
  rewrite strip_prefix_app. cbn [mbind option_bind]. rewrite Hc.
  rewrite strip_prefix_app. cbn [mbind option_bind].
  rewrite (run1_app is_word word) by done. cbn [mbind option_bind].
  rewrite strip_prefix_app. cbn [mbind option_bind].
  rewrite (run1_app is_digit d1) by done. cbn [mbind option_bind].
  rewrite strip_prefix_app. cbn [mbind option_bind].
  rewrite (run1_app is_digit d2) by done. cbn [mbind option_bind].
  rewrite strip_prefix_app. cbn [mbind option_bind].
  rewrite (run1_app is_digit build) by done. cbn [mbind option_bind].
  by rewrite strip_prefix_app.
Qed.

Lemma match_rev_app (before s : string) :
  is_Some (match_rev_here s) → is_Some (match_rev (before +:+ s)).
Proof.
  intros Hs. induction before as [|c before IH].
  - rewrite string_app_nil_l. destruct s; cbn [match_rev];
      by destruct Hs as [v ->].
  - rewrite string_app_cons. cbn [match_rev].
    by destruct (match_rev_here (String c (before +:+ s))).
Qed.

(** X4. The banner pattern. A version is found exactly in the texts of the
    shape the pattern describes, and the version that is found has that
    shape. *)
Theorem match_rev_banner (out : string) :
  (is_Some (match_rev out) ↔ ∃ v, bannerShape out v)
  ∧ (∀ v, match_rev out = Some v → bannerShape out v).
Proof.
  assert (Hsound : ∀ s v, match_rev s = Some v → bannerShape s v).
  { intros s. induction s as [|c s IH]; intros v; cbn [match_rev].
    - destruct (match_rev_here "") as [v'|] eqn:Hhere; [|done].
      intros [= <-]. apply match_rev_here_shape in Hhere
        as (c' & word & d1 & d2 & build & after & Hs & Hrest).
      exists "", c', word, d1, d2, build, after. by rewrite string_app_nil_l.
    - destruct (match_rev_here (String c s)) as [v'|] eqn:Hhere.
      + intros [= <-]. apply match_rev_here_shape in Hhere
          as (c' & word & d1 & d2 & build & after & Hs & Hrest).
        exists "", c', word, d1, d2, build, after. by rewrite string_app_nil_l.
      + intros Hs. apply IH in Hs
          as (before & c' & word & d1 & d2 & build & after & -> & Hrest).
        exists (String c before), c', word, d1, d2, build, after.
        by rewrite string_app_cons. }
  split; [split|apply Hsound].
  - intros [v Hv]. exists v. by apply Hsound.
  - intros (v & before & c & word & d1 & d2 & build & after & -> & Hc & ? & ?
            & ? & ? & ? & ? & ? & ? & _).
    apply match_rev_app. rewrite match_rev_here_complete by done. by eexists.
Qed.

(** The theorem on the sample server, which reports "2023.2". *)
Lemma createCommandManager_inr_witness :
  ∃ p4, (createCommandManager (sampleEnv "2023.2" None) "/work/repo" (start Directory)).1
        = inr p4
        ∧ fullySet (perforceVersion p4)
        ∧ perforceVersion p4 = PerforceVersion.new (Some "2023.2").
Proof.
  destruct (createCommandManager (sampleEnv "2023.2" None) "/work/repo" (start Directory))
    as [[e|p4] s'] eqn:Hrun; [vm_compute in Hrun; discriminate|].
  exists p4.
  destruct (createCommandManager_inr _ _ _ _ _ Hrun) as (_ & Hset & _ & _).
  split_and!; [done | done |]. vm_compute in Hrun. by injection Hrun as <- _.
Defined.

(** The theorem on the banner of the sample server. *)
Lemma match_rev_banner_witness :
  bannerShape (versionBanner "2023.2") "2023.2".
Proof. by apply (proj2 (match_rev_banner (versionBanner "2023.2"))). Defined.

End SessionFacts.

(** ** The branches of a run *)

Module BranchFacts.
Import Js JsFacts Effects PerforceCommandManager SourceProvider Spec Samples.
Import VersionFacts ClientFacts RunFacts PhaseFacts DriftFacts Vocabulary.

Lemma createCommandManager_state (env : Env) (directory : string)
    (s s' : State) (p4 : PerforceCommandManager.t) :
  createCommandManager env directory s = (inr p4, s') →
  fs s = Directory ∧ s' = record (Exec ["-V"] "") s.
Proof.
  unfold createCommandManager. intros (output & s1 & Hexec & H)%bind_inr.
  apply execP4_inr in Hexec as (Hfs & -> & _).
  destruct (negb _); [done|]. by injection H as _ <-.
Qed.

(** X5. A failed login. Whatever makes [p4 login -s] fail, the run throws
    the string that asks for a login, right after that command. *)
Theorem login_failure (env : Env) (settings : Settings) (s0 s1 s2 : State)
    (p4 : PerforceCommandManager.t) (code : Z) (out : string) :
  prepareDirectory env settings s0 = (inr (), s1) →
  getPerforceCommandManager env settings s1 = (inr p4, s2) →
  p4_exe env (trace s2)
         (<["P4USER" := authToken settings]>
            (<["P4PORT" := repositoryName settings]> (p4Env s2)))
         ["login"; "-s"] "" = (code, out) →
  code ≠ 0 →
  (getSource env settings s0).1
  = inl (Thrown "Workflow must login to perforce before running checkout")
  ∧ trace (getSource env settings s0).2 = trace s2 ++ [Exec ["login"; "-s"] ""].
Proof.
  intros Hprep Hcreate Hexe Hcode.
  pose proof Hcreate as Hfs. unfold getPerforceCommandManager in Hfs.
  apply createCommandManager_state in Hfs as [_ Hs2].
  destruct (prepareDirectory_run env settings s0) as (t & _ & _ & _ & Hdone).
  rewrite Hprep in Hdone. destruct (Hdone eq_refl) as [_ Hdir]. simpl in Hdir.
  assert (Hfs2 : fs s2 = Directory) by by rewrite Hs2.
  assert (Hopen : openSession env settings p4 s2
                  = (inl (Thrown "Workflow must login to perforce before running checkout"),
                     record (Exec ["login"; "-s"] "")
                       {| fs := fs s2;
                          p4Env := <["P4USER" := authToken settings]>
                                     (<["P4PORT" := repositoryName settings]> (p4Env s2));
                          trace := trace s2 |})).
  { unfold openSession, try_catch, verifyLogin, execP4, directoryExistsSync,
      setEnvironmentVariable, exec, throw.
    cbv [mbind M_bind mret M_ret]. cbn [fs p4Env trace].
    rewrite Hfs2. cbn [fs p4Env trace]. rewrite Hexe.
    by rewrite decide_False by done. }
  unfold getSource. rewrite (bind_inr_run _ _ _ _ _ Hprep).
  rewrite (bind_inr_run _ _ _ _ _ Hcreate).
  by rewrite (bind_inl _ _ _ _ _ Hopen).
Qed.
Lemma editClient_inr (env : Env) (this : PerforceCommandManager.t)
    (definition : PerforceClient) (s s' : State) :
  editClient env this definition s = (inr (), s') →
  ∃ lines, clientSpec definition = inr lines
           ∧ s' = record (Exec ["client"; "-i"] (join newline lines)) s.
Proof.
  unfold editClient. destruct (clientSpec definition) as [e|lines]; [done|].
  intros (output & s1 & Hexec & [= <-])%bind_inr.
  apply execP4_inr in Hexec as (_ & -> & _). by exists lines.
Qed.

(** The specification piped for a new client, line by line. *)
Lemma clientSpec_created (env : Env) (settings : Settings)
    (template newClient : PerforceClient) :
  clientSpec (createdClient env settings template newClient)
  = inr ([ "Client:" +:+ tab +:+ clientName env settings;
           "Owner:" +:+ tab +:+ show (owner newClient);
           "Host:" +:+ tab +:+ hostname env;
           "Description:" ]
         ++ ((λ line, tab +:+ line)
               <$> split (ascii_of_nat 10)
                     ("Build template instance for " +:+ hostname env))
         ++ [ "Root:" +:+ tab +:+ repositoryPath settings;
              "Options:" +:+ tab +:+ show (options newClient);
              "SubmitOptions:" +:+ tab +:+ show (submitOptions newClient);
              "LineEnd:" +:+ tab +:+ show (lineEnd newClient);
              "View:" ]
         ++ ((λ mapping, tab +:+ depot mapping +:+ " "
                         +:+ substitute settings (clientName env settings) mapping)
               <$> view template)).
Proof.
  unfold clientSpec. cbn [description createdClient client_name owner host root
                          options submitOptions lineEnd view show].
  unfold substitutedView. by rewrite <-list_fmap_compose.
Qed.

Lemma emits_create (env : Env) (P : Event → Prop) (settings : Settings)
    (p4 : PerforceCommandManager.t) (template : PerforceClient) :
  P (Exec ["-Mj"; "-Ztag"; "client"; "-o"; clientTemplate settings] "") →
  (∀ input, P (Exec ["client"; "-i"] input)) →
  emits P (create env settings p4 template).
Proof.
  intros Hread Hwrite. unfold create. apply emits_bind; [by apply emits_client|].
  intros newClient. apply emits_bind.
  - eapply steps_emits; [apply steps_editClient|].
    unfold writeEvents. destruct (clientSpec _); by repeat constructor.
  - intros _ s. exists []. by rewrite app_nil_r.
Qed.

Lemma create_inr (env : Env) (settings : Settings)
    (p4 : PerforceCommandManager.t) (template : PerforceClient)
    (s s' : State) (needSyncNone : bool) :
  create env settings p4 template s = (inr needSyncNone, s') →
  needSyncNone = false
  ∧ ∃ newClient lines,
      client env p4 (clientTemplate settings) s
      = (inr newClient,
         record (Exec ["-Mj"; "-Ztag"; "client"; "-o"; clientTemplate settings] "") s)
      ∧ clientSpec (createdClient env settings template newClient) = inr lines
      ∧ s' = record (Exec ["client"; "-i"] (join newline lines))
               (record (Exec ["-Mj"; "-Ztag"; "client"; "-o"; clientTemplate settings] "") s).
Proof.
  unfold create. intros (newClient & sa & Hread & H)%bind_inr.
  apply bind_inr in H as ([] & sb & Hwrite & [= <- <-]).
  pose proof Hread as Hsa. apply client_inr in Hsa as (_ & ->).
  apply editClient_inr in Hwrite as (lines & Hlines & ->).
  split; [done|]. by exists newClient, lines.
Qed.

(** X6. The branch of a machine that has no client yet. The template is
    read once more and a definition is written that takes the resolved
    name, the host, a generated description, the root and the substituted
    view, and keeps owner, options, submit options and line ends of what
    was read; then clean, sync and output follow. Nothing is purged. *)
Theorem create_branch (env : Env) (settings : Settings) (s0 s1 : State)
    (p4 : PerforceCommandManager.t) (template : PerforceClient) :
  reachClient env settings s0 = (inr (p4, template, None), s1) →
  (∃ t, trace (getSource env settings s0).2 = trace s1 ++ t
        ∧ Forall (λ e, is_purge e = false) t)
  ∧ ((getSource env settings s0).1 = inr () →
     ∃ newClient,
       (client env p4 (clientTemplate settings) s1).1 = inr newClient
       ∧ trace (getSource env settings s0).2
         = trace s1
           ++ [ Exec ["-Mj"; "-Ztag"; "client"; "-o"; clientTemplate settings] "";
                Exec ["client"; "-i"]
                  (join newline
                     ([ "Client:" +:+ tab +:+ clientName env settings;
                        "Owner:" +:+ tab +:+ show (owner newClient);
                        "Host:" +:+ tab +:+ hostname env;
                        "Description:" ]
                      ++ ((λ line, tab +:+ line)
                            <$> split (ascii_of_nat 10)
                                  ("Build template instance for " +:+ hostname env))
                      ++ [ "Root:" +:+ tab +:+ repositoryPath settings;
                           "Options:" +:+ tab +:+ show (options newClient);
                           "SubmitOptions:" +:+ tab +:+ show (submitOptions newClient);
                           "LineEnd:" +:+ tab +:+ show (lineEnd newClient);
                           "View:" ]
                      ++ ((λ mapping, tab +:+ depot mapping +:+ " "
                                      +:+ substitute settings (clientName env settings) mapping)
                            <$> view template))) ]
           ++ [ Exec ["clean"; "-a"; "-d"; "-e"; "//" +:+ clientName env settings +:+ "/..."] "";
                Exec ["sync"; "//" +:+ clientName env settings +:+ "/..." +:+ ref settings] "";
                SetOutput "commit" (ref settings) ]).
Proof.
  intros Hreach.
  assert (Hrun : getSource env settings s0
                 = (create env settings p4 template ≫= checkOut env settings p4) s1).
  { by rewrite getSource_run, (bind_inr_run _ _ _ _ _ Hreach). }
  rewrite Hrun, bind_run.
  destruct (emits_create env (λ e, is_purge e = false) settings p4 template
              eq_refl (λ _, eq_refl) s1) as (t1 & Ht1 & Hquiet1).
  destruct (create env settings p4 template s1) as [[e|needSyncNone] s2] eqn:Hcreate.
  { split; [by exists t1|done]. }
  apply create_inr in Hcreate as (-> & newClient & lines & Hread & Hlines & ->).
  destruct (steps_checkOut env settings p4 false
              (record (Exec ["client"; "-i"] (join newline lines))
                 (record (Exec ["-Mj"; "-Ztag"; "client"; "-o"; clientTemplate settings] "") s1)))
    as (t2 & Ht2 & Hprefix & Hdone).
  split.
  - exists (t1 ++ t2). rewrite Ht2. cbn [snd] in Ht1. rewrite Ht1, (assoc_L (++)).
    split; [done|]. apply Forall_app. split; [done|].
    destruct Hprefix as [rest Hrest]. simpl in Hrest.
    assert (Forall (λ e, is_purge e = false) (checkoutEvents env settings))
      as Hall by (by repeat constructor).
    rewrite Hrest in Hall. by apply Forall_app in Hall as [? _].
  - intros Hok. destruct (Hdone _ Hok) as [-> _]. exists newClient.
    rewrite Hread. split; [done|]. rewrite Ht2. simpl.
    rewrite clientSpec_created in Hlines. injection Hlines as <-.
    by rewrite <-!(assoc_L (++)).
Qed.

(** X7. An existing client whose record holds no description cannot be
    rebuilt: when a rebuild is due the run stops with a [TypeError] before
    it has written or purged anything. *)
Theorem undescribed_client (env : Env) (settings : Settings) (s0 s1 : State)
    (p4 : PerforceCommandManager.t) (template existing : PerforceClient) :
  reachClient env settings s0 = (inr (p4, template, Some existing), s1) →
  description existing = None →
  truthy (owner existing) = false ∨ owner existing = Some (authToken settings) →
  rebuildClient env settings template existing = true →
  getSource env settings s0 = (inl TypeError, s1).
Proof.
  intros Hreach Hnone Howner Hrebuild.
  rewrite getSource_run, (bind_inr_run _ _ _ _ _ Hreach).
  apply bind_inl. unfold reconcile.
  assert (truthy (owner existing)
          && bool_decide (owner existing ≠ Some (authToken settings)) = false) as ->.
  { destruct Howner as [->| ->]; [done|].
    rewrite bool_decide_eq_false_2; [apply andb_false_r|]. by intros []. }
  rewrite Hrebuild. apply bind_inl. unfold editClient, clientSpec.
  cbn [description rebuiltClient]. by rewrite Hnone.
Qed.

Lemma created_no_drift (env : Env) (settings : Settings)
    (template newClient : PerforceClient) :
  uniqueDepots template →
  rebuildClient env settings template (createdClient env settings template newClient)
  = false.
Proof.
  intros Hunique. apply not_true_is_false. rewrite rebuildClient_drift; [|done|].
  - rewrite (drift_ext env env settings template
               (rebuiltClient env settings template newClient)
               (createdClient env settings template newClient)); try done.
    by apply rebuilt_no_drift.
  - unfold uniqueDepots. cbn [view createdClient].
    by rewrite substitutedView_depots.
Qed.

(** X8. The definition a run creates is settled for the runs that follow,
    but it is owned by whoever owns the template. Against the same
    template (no depot path twice) it shows none of the conditions of a
    rebuild; the next run leaves it alone when the template's owner is
    empty or is the login, and otherwise refuses it as another's client. *)
Theorem created_client_next_run (env : Env) (settings : Settings)
    (p4 : PerforceCommandManager.t) (template newClient : PerforceClient)
    (s : State) :
  uniqueDepots template →
  rebuildClient env settings template (createdClient env settings template newClient)
  = false
  ∧ reconcile env settings p4 template
              (createdClient env settings template newClient) s
    = if truthy (owner newClient)
         && bool_decide (owner newClient ≠ Some (authToken settings))
      then (inl (Error ("Client owner does not match, aborting. "
                        +:+ show (owner newClient) +:+ " != " +:+ authToken settings)),
            s)
      else (inr false, s).
Proof.
  intros Hunique. pose proof (created_no_drift env settings template newClient Hunique)
    as Hsettled.
  split; [done|]. unfold reconcile. rewrite Hsettled.
  cbn [owner createdClient]. by destruct (_ && _).
Qed.

Lemma GetSubstitution_plain (matched before after text rest : string) :
  plain text →
  GetSubstitution matched before after (text +:+ rest)
  = text +:+ GetSubstitution matched before after rest.
Proof.
  unfold plain. induction text as [|c text IH]; [done|].
  cbn [all]. intros [Hc Htext]%andb_true_iff. apply bool_decide_eq_true in Hc.
  rewrite !string_app_cons, <-(IH Htext).
  destruct c as [[] [] [] [] [] [] [] []]; done.
Qed.

Lemma find_app (pat rest : string) : find pat (pat +:+ rest) = Some ("", rest).
Proof.
  pose proof (SessionFacts.strip_prefix_app pat rest) as Hp.
  destruct (pat +:+ rest); cbn [find]; by rewrite Hp.
Qed.

Lemma find_Some (pat text before after : string) :
  find pat text = Some (before, after) → text = before +:+ pat +:+ after.
Proof.
  revert before. induction text as [|c text IH]; intros before; cbn [find].
  - destruct (strip_prefix pat "") eqn:Hp; [|done]. intros [= <- <-].
    by apply SessionFacts.strip_prefix_Some in Hp.
  - destruct (strip_prefix pat (String c text)) eqn:Hp.
    + intros [= <- <-]. by apply SessionFacts.strip_prefix_Some in Hp.
    + destruct (find pat text) as [[b a]|]; [|done]. intros [= <- <-].
      by rewrite string_app_cons, <-(IH b).
Qed.

(** X9. The substitution of the namespace. A client path under the
    template's root comes out under the root of the new name, with
    everything after the root kept, provided the new name holds no "$"; a
    path that does not hold the template's root comes out as it is. *)
Theorem substitute_rooted (settings : Settings) (name : string)
    (mapping : PerforceMapping) :
  (∀ rest, plain name →
     client_path mapping = "//" +:+ clientTemplate settings +:+ "/" +:+ rest →
     substitute settings name mapping = "//" +:+ name +:+ "/" +:+ rest)
  ∧ (¬ contains (client_path mapping) ("//" +:+ clientTemplate settings +:+ "/") →
     substitute settings name mapping = client_path mapping).
Proof.
  unfold substitute, replace. split.
  - intros rest Hplain ->.
    assert (find ("//" +:+ clientTemplate settings +:+ "/")
                 ("//" +:+ clientTemplate settings +:+ "/" +:+ rest)
            = Some ("", rest)) as ->.
    { rewrite <-!string_app_assoc. apply find_app. }
    rewrite string_app_nil_l.
    change ("//" +:+ name +:+ "/") with ("//" +:+ (name +:+ "/")).
    rewrite (GetSubstitution_plain _ _ _ "//") by done.
    rewrite GetSubstitution_plain by done.
    cbn [GetSubstitution]. by rewrite !string_app_assoc.
  - intros Habsent. destruct (find _ _) as [[before after]|] eqn:Hfind; [|done].
    destruct Habsent. exists before, after. by apply find_Some.
Qed.

(** X10. The preparation of the target root. A directory in place is left as
    it is and nothing is recorded; a file is removed first; and whenever
    the preparation returns the root is a directory, with the session
    variables untouched. *)
Theorem prepareDirectory_outcome (env : Env) (settings : Settings) (s : State) :
  (fs s = Directory → prepareDirectory env settings s = (inr (), s))
  ∧ (∀ s', prepareDirectory env settings s = (inr (), s') →
       fs s' = Directory ∧ p4Env s' = p4Env s
       ∧ trace s' = trace s
                    ++ match fs s with
                       | File => [RmRF (repositoryPath settings);
                                  MkdirP (repositoryPath settings)]
                       | Missing => [MkdirP (repositoryPath settings)]
                       | Directory => []
                       end)
  ∧ (∀ path, RmRF path ∈ trace (prepareDirectory env settings s).2 →
       RmRF path ∈ trace s ∨ fs s = File).
Proof.
  destruct (prepareDirectory_run env settings s) as (t & Ht & Hprefix & Hvars & Hdone).
  split_and!.
  - intros Hfs. unfold prepareDirectory, fileExistsSync, directoryExistsSync, when.
    cbv [mbind M_bind mret M_ret]. destruct s as [k vars t0]. simpl in *. by subst k.
  - intros s' Hrun. rewrite Hrun in Ht, Hvars, Hdone. simpl in *.
    destruct (Hdone eq_refl) as [-> Hfs]. by destruct (fs s).
  - intros path. rewrite Ht, elem_of_app. intros [?|Hin]; [by left|].
    destruct Hprefix as [rest Hrest]. destruct (fs s); [|by right|].
    + simpl in Hrest. assert (RmRF path ∈ [MkdirP (repositoryPath settings)]) as Hbad.
      { rewrite Hrest. apply elem_of_app. by left. }
      by apply list_elem_of_singleton in Hbad.
    + simpl in Hrest. destruct t; [by apply elem_of_nil in Hin | done].
Qed.

(** The theorem on a directory in place and on a file in the way. *)
Lemma prepareDirectory_outcome_witness :
  prepareDirectory (sampleEnv "2023.2" None) settings (start Directory)
  = (inr (), start Directory)
  ∧ trace (prepareDirectory (sampleEnv "2023.2" None) settings (start File)).2
    = [RmRF "/work/repo"; MkdirP "/work/repo"].
Proof.
  split.
  - by apply (proj1 (prepareDirectory_outcome _ _ _)).
  - destruct (prepareDirectory (sampleEnv "2023.2" None) settings (start File))
      as [[e|[]] s'] eqn:Hrun; [vm_compute in Hrun; discriminate|].
    destruct (proj1 (proj2 (prepareDirectory_outcome _ _ _)) _ Hrun)
      as (_ & _ & Htrace).
    simpl. by rewrite Htrace.
Defined.

(** The theorem on a server that refuses the login. *)
Lemma login_failure_witness :
  (getSource (refusing "login" (sampleEnv "2023.2" None)) settings (start Missing)).1
  = inl (Thrown "Workflow must login to perforce before running checkout")
  ∧ trace (getSource (refusing "login" (sampleEnv "2023.2" None)) settings
                     (start Missing)).2
    = [MkdirP "/work/repo"; Exec ["-V"] ""; Exec ["login"; "-s"] ""].
Proof.
  destruct (prepareDirectory (refusing "login" (sampleEnv "2023.2" None)) settings
              (start Missing)) as [[e|[]] s1] eqn:Hprep;
    [vm_compute in Hprep; discriminate|].
  destruct (getPerforceCommandManager (refusing "login" (sampleEnv "2023.2" None))
              settings s1) as [[e|p4] s2] eqn:Hcreate.
  { pose proof Hprep as Hs1. vm_compute in Hs1. injection Hs1 as <-.
    vm_compute in Hcreate. discriminate. }
  destruct (login_failure _ _ _ _ _ _ 1 "" Hprep Hcreate) as [Hthrown Htrace];
    [done | done |].
  split; [done|]. rewrite Htrace.
  vm_compute in Hprep. injection Hprep as <-.
  vm_compute in Hcreate. by injection Hcreate as _ <-.
Defined.

(** The theorem on the sample server, which knows no client of the
    machine: the definition written for "runner-1". *)
Lemma create_branch_witness :
  ∃ before,
    trace (getSource (sampleEnv "2023.2" None) settings (start Missing)).2
    = before
      ++ [ Exec ["-Mj"; "-Ztag"; "client"; "-o"; "T"] "";
           Exec ["client"; "-i"]
             (join newline
                [ "Client:" +:+ tab +:+ "T_runner_1";
                  "Owner:" +:+ tab +:+ "admin";
                  "Host:" +:+ tab +:+ "runner-1";
                  "Description:";
                  tab +:+ "Build template instance for runner-1";
                  "Root:" +:+ tab +:+ "/work/repo";
                  "Options:" +:+ tab +:+ "noallwrite clobber";
                  "SubmitOptions:" +:+ tab +:+ "submitunchanged";
                  "LineEnd:" +:+ tab +:+ "local";
                  "View:";
                  tab +:+ "//depot/a/... //T_runner_1/a/...";
                  tab +:+ "//depot/b/... //T_runner_1/b/..." ]);
           Exec ["clean"; "-a"; "-d"; "-e"; "//T_runner_1/..."] "";
           Exec ["sync"; "//T_runner_1/...@12345"] "";
           SetOutput "commit" "@12345" ].
Proof.
  destruct (reachClient (sampleEnv "2023.2" None) settings (start Missing))
    as [[e|[[p4 template] [existing|]]] s1] eqn:Hreach;
    try (vm_compute in Hreach; discriminate).
  pose proof Hreach as Hvalues. vm_compute in Hvalues.
  injection Hvalues as <- <- <-.
  destruct (create_branch _ _ _ _ _ _ Hreach) as [_ Hdone].
  destruct Hdone as (newClient & Hread & Htrace); [by vm_compute|].
  vm_compute in Hread. injection Hread as <-.
  eexists. rewrite Htrace. f_equal.
Defined.

(** The theorem on a client of another host with no description. *)
Lemma undescribed_client_witness :
  (getSource (sampleEnv "2023.2" (Some undescribedRecord)) settings (start Directory)).1
  = inl TypeError.
Proof.
  destruct (reachClient (sampleEnv "2023.2" (Some undescribedRecord)) settings
              (start Directory))
    as [[e|[[p4 template] [existing|]]] s1] eqn:Hreach;
    try (vm_compute in Hreach; discriminate).
  pose proof Hreach as Hvalues. vm_compute in Hvalues.
  injection Hvalues as <- <- <- <-.
  by rewrite (undescribed_client _ _ _ _ _ _ _ Hreach eq_refl (or_intror eq_refl) eq_refl).
Defined.

(** The theorem on a template owned by "admin" and the login "bob". *)
Lemma created_client_next_run_witness :
  let template :=
    {| host := None; client_name := Some "T"; description := Some "Build template";
       options := None; submitOptions := None; lineEnd := None;
       owner := Some "admin"; root := Some "/nowhere";
       view := [ {| depot := "//depot/a/..."; client_path := "//T/a/..." |};
                 {| depot := "//depot/b/..."; client_path := "//T/b/..." |} ] |} in
  let p4 := {| workingDirectory := "/work/repo";
               perforceVersion := PerforceVersion.new (Some "2023.2") |} in
  reconcile (sampleEnv "2023.2" None) settings p4 template
            (createdClient (sampleEnv "2023.2" None) settings template template)
            (start Directory)
  = (inl (Error "Client owner does not match, aborting. admin != bob"),
     start Directory).
Proof.
  intros template p4.
  refine (proj2 (created_client_next_run (sampleEnv "2023.2" None) settings p4
                   template template (start Directory) _)).
  apply (bool_decide_unpack _). by vm_compute.
Defined.

(** The theorem on a path of the sample template. *)
Lemma substitute_rooted_witness :
  substitute settings "T_runner_1"
             {| depot := "//depot/a/..."; client_path := "//T/a/..." |}
  = "//T_runner_1/a/...".
Proof.
  by apply (proj1 (substitute_rooted settings "T_runner_1"
                     {| depot := "//depot/a/..."; client_path := "//T/a/..." |})
              "a/...").
Defined.

End BranchFacts.

(** ** Exit codes and session variables *)

Module PassFacts.
Import Js JsFacts Effects PerforceCommandManager SourceProvider Spec Samples.
Import VersionFacts ClientFacts RunFacts PhaseFacts DriftFacts Vocabulary.

Section WithEnv.
Context (env : Env) (vars : list string → gmap string string).

Lemma passed_nil (before : list Event) : passed env vars before [].
Proof. intros pre args input post H. by destruct pre. Qed.

Lemma passed_other (before : list Event) (e : Event) :
  (∀ args input, e ≠ Exec args input) → passed env vars before [e].
Proof.
  intros He pre args input post H. destruct pre as [|e' pre].
  - injection H as ->. by edestruct He.
  - injection H as _ H. by destruct pre.
Qed.

Lemma passed_exec (before : list Event) (args : list string) (input out : string) :
  p4_exe env before (vars args) args input = (0, out) →
  passed env vars before [Exec args input].
Proof.
  intros Hexe pre args' input' post H. destruct pre as [|e' pre].
  - injection H as <- <- _. rewrite app_nil_r. by exists out.
  - injection H as _ H. by destruct pre.
Qed.

Lemma passed_app (before t1 t2 : list Event) :
  passed env vars before t1 → passed env vars (before ++ t1) t2 →
  passed env vars before (t1 ++ t2).
Proof.
  intros H1 H2 pre args input post H.
  apply List.app_eq_app in H as [l [[-> Hl] | [-> Hl]]].
  - destruct l as [|e l].
    + simpl in Hl. rewrite app_nil_r in H2.
      destruct (H2 [] args input post) as [out Hout]; [done|].
      rewrite app_nil_r in Hout. by exists out.
    + injection Hl as <- Hl. by apply (H1 pre args input l).
  - destruct (H2 l args input post Hl) as [out Hout].
    exists out. by rewrite (assoc_L (++)).
Qed.

Lemma accounted_ret {A} (v : gmap string string) (a : A) :
  accounted env vars v (mret a : M A) v.
Proof.
  intros s Hv. exists []. simpl. rewrite app_nil_r.
  split_and!; [done | done | apply passed_nil].
Qed.

Lemma accounted_throw {A} (v v' : gmap string string) (e : Exn) :
  (∀ code, e ≠ ExecError code) →
  accounted env vars v (throw e : M A) v'.
Proof.
  intros He s Hv. exists []. simpl. rewrite app_nil_r. split; [done|].
  intros code ->. by edestruct He.
Qed.

Lemma accounted_pure {A} (v v' : gmap string string) (r : Exn + A) :
  match r with inl e => ∀ code, e ≠ ExecError code | inr _ => v' = v end →
  accounted env vars v (λ s, (r, s)) v'.
Proof.
  intros Hr s Hv. exists []. simpl. rewrite app_nil_r. split; [done|].
  destruct r as [e|a].
  - intros code ->. by edestruct Hr.
  - subst v'. split; [done|apply passed_nil].
Qed.

Lemma accounted_bind {A B} (v1 v2 v3 : gmap string string)
    (m : M A) (k : A → M B) :
  accounted env vars v1 m v2 →
  (∀ a, accounted env vars v2 (k a) v3) →
  accounted env vars v1 (m ≫= k) v3.
Proof.
  intros Hm Hk s Hv. rewrite bind_run.
  destruct (Hm s Hv) as (t1 & Ht1 & Hr1).
  destruct (m s) as [[e|a] s1]; simpl in *; [by exists t1|].
  destruct Hr1 as [Hv1 Hp1].
  destruct (Hk a s1 Hv1) as (t2 & Ht2 & Hr2). exists (t1 ++ t2).
  rewrite Ht2, Ht1, (assoc_L (++)). split; [done|].
  rewrite Ht1 in Hr2.
  destruct ((k a s1).1) as [e|b].
  - intros code Hcode. destruct (Hr2 code Hcode)
      as (Hne & pre & args & input & out & -> & Hpre & Hexe).
    split; [done|]. exists (t1 ++ pre), args, input, out.
    rewrite !(assoc_L (++)). split_and!; [done | by apply passed_app | done].
  - destruct Hr2 as [? Hp2]. split; [done|]. by apply passed_app.
Qed.

Lemma accounted_when (v : gmap string string) (condition : bool)
    (body : M unit) :
  accounted env vars v body v →
  accounted env vars v (when condition body) v.
Proof. destruct condition; [done|]. intros _. apply accounted_ret. Qed.

Lemma accounted_setEnvironmentVariable (v : gmap string string)
    (name value : string) :
  accounted env vars v (setEnvironmentVariable name value) (<[name := value]> v).
Proof.
  intros s Hv. exists []. simpl. rewrite app_nil_r, Hv.
  split_and!; [done | done | apply passed_nil].
Qed.

Lemma accounted_execP4 (v : gmap string string)
    (this : PerforceCommandManager.t) (args : list string) (input : string) :
  vars args = v →
  accounted env vars v (execP4 env this args input) v.
Proof.
  intros Hargs s Hv. unfold execP4. rewrite bind_run. unfold directoryExistsSync.
  assert (∃ t, trace (exec env args input s).2 = trace s ++ t
               ∧ match (exec env args input s).1 with
                 | inr _ => p4Env (exec env args input s).2 = v
                            ∧ passed env vars (trace s) t
                 | inl e => stopped env vars (trace s) t e
                 end) as Hexec.
  { exists [Exec args input]. unfold exec.
    destruct (p4_exe env (trace s) (p4Env s) args input) as [code out] eqn:Hexe.
    rewrite Hv, <-Hargs in Hexe. case_decide as Hcode; simpl.
    - subst code. split_and!; [done | done | by apply (passed_exec _ _ _ out)].
    - split; [done|]. intros code' [= <-]. split; [done|].
      exists [], args, input, out. rewrite app_nil_r.
      split_and!; [done | apply passed_nil | done]. }
  destruct (fs s); try done; exists []; simpl; rewrite app_nil_r;
    (split; [done|]); by intros code.
Qed.

Lemma accounted_execP4_unit (v : gmap string string)
    (this : PerforceCommandManager.t) (args : list string) (input : string) :
  vars args = v →
  accounted env vars v (execP4 env this args input;; mret ()) v.
Proof.
  intros Hargs. eapply accounted_bind; [by apply accounted_execP4|].
  intros _. apply accounted_ret.
Qed.

Lemma accounted_rmRF (v : gmap string string) (path : string) :
  accounted env vars v (rmRF env path) v.
Proof.
  intros s Hv. exists [RmRF path]. unfold rmRF.
  destruct (io_fails env _); simpl; (split; [done|]).
  - by intros code.
  - split; [done|]. by apply passed_other.
Qed.

Lemma accounted_mkdirP (v : gmap string string) (path : string) :
  accounted env vars v (mkdirP env path) v.
Proof.
  intros s Hv. exists [MkdirP path]. unfold mkdirP.
  destruct (io_fails env _); simpl; (split; [done|]).
  - by intros code.
  - split; [done|]. by apply passed_other.
Qed.

Lemma accounted_setOutput (v : gmap string string) (name value : string) :
  accounted env vars v (setOutput name value) v.
Proof.
  intros s Hv. exists [SetOutput name value]. simpl.
  split_and!; [done | done | by apply passed_other].
Qed.

Lemma accounted_client (v : gmap string string)
    (this : PerforceCommandManager.t) (name : string) :
  vars ["-Mj"; "-Ztag"; "client"; "-o"; name] = v →
  accounted env vars v (client env this name) v.
Proof.
  intros Hargs. unfold client.
  eapply accounted_bind; [by apply accounted_execP4|].
  intros output. destruct (JSON_parse env _); [|by apply accounted_throw].
  destruct (viewMappings l) as [e|mappings] eqn:Hview; [|apply accounted_ret].
  apply accounted_throw. intros code ->.
  pose proof (viewMappings_spec l) as Hspec. rewrite Hview in Hspec.
  by destruct Hspec as (line & _ & _ & ?).
Qed.

Lemma accounted_editClient (v : gmap string string)
    (this : PerforceCommandManager.t) (definition : PerforceClient) :
  vars ["client"; "-i"] = v →
  accounted env vars v (editClient env this definition) v.
Proof.
  intros Hargs. unfold editClient, clientSpec.
  destruct (description definition); [|by apply accounted_throw].
  by apply accounted_execP4_unit.
Qed.

(** The login: whatever [verifyLogin] throws is replaced. *)
Lemma accounted_login (v : gmap string string) (this : PerforceCommandManager.t)
    (value : string) :
  vars ["login"; "-s"] = v →
  accounted env vars v
    (try_catch (verifyLogin env this) (throw (Thrown value))) v.
Proof.
  intros Hargs s Hv. unfold try_catch.
  destruct (accounted_execP4_unit v this ["login"; "-s"] "" Hargs s Hv)
    as (t & Ht & Hr).
  change (execP4 env this ["login"; "-s"] "";; mret ()) with (verifyLogin env this)
    in Ht, Hr.
  destruct (verifyLogin env this s) as [[e|[]] s1]; simpl in *.
  - exists t. split; [done|]. by intros code.
  - by exists t.
Qed.

End WithEnv.

Lemma getSource_accounted (env : Env) (settings : Settings)
    (initial : gmap string string) :
  accounted env (variablesFor settings (clientName env settings) initial)
    initial (getSource env settings)
    (<["P4CLIENT" := clientName env settings]>
       (<["P4USER" := authToken settings]>
          (<["P4PORT" := repositoryName settings]> initial))).
Proof.
  set (vars := variablesFor settings (clientName env settings) initial).
  set (session := <["P4USER" := authToken settings]>
                    (<["P4PORT" := repositoryName settings]> initial)).
  unfold getSource.
  apply (accounted_bind _ _ _ initial).
  { unfold prepareDirectory.
    apply (accounted_bind _ _ _ initial).
    { intros s Hv. exists []. simpl. rewrite app_nil_r.
      split_and!; [done | done | apply passed_nil]. }
    intros isFile. apply (accounted_bind _ _ _ initial);
      [apply accounted_when, accounted_rmRF|].
    intros _. apply (accounted_bind _ _ _ initial).
    { intros s Hv. exists []. unfold directoryExistsSync.
      destruct (fs s); simpl; rewrite app_nil_r;
        (split_and!; [done | done | apply passed_nil]). }
    intros isDirectory. apply accounted_when, accounted_mkdirP. }
  intros _. apply (accounted_bind _ _ _ initial).
  { unfold getPerforceCommandManager, createCommandManager.
    apply (accounted_bind _ _ _ initial); [by apply accounted_execP4|].
    intros output. destruct (negb _); [by apply accounted_throw|apply accounted_ret]. }
  intros p4. apply (accounted_bind _ _ _ session).
  { unfold openSession.
    eapply accounted_bind; [apply accounted_setEnvironmentVariable|].
    intros _. apply (accounted_bind _ _ _ session);
      [apply accounted_setEnvironmentVariable|].
    intros _. apply (accounted_bind _ _ _ session);
      [by apply accounted_login | intros _; by apply accounted_client]. }
  intros template. apply (accounted_bind _ _ _ session).
  { unfold setUpClientWorkspace.
    apply (accounted_bind _ _ _ session).
    { unfold clientExists.
      eapply accounted_bind; [by apply accounted_execP4|].
      intros output. apply accounted_ret. }
    intros [].
    - apply (accounted_bind _ _ _ session); [by apply accounted_client|].
      intros existing. unfold reconcile.
      destruct (_ && _); [by apply accounted_throw|].
      destruct (rebuildClient _ _ _ _); [|apply accounted_ret].
      apply (accounted_bind _ _ _ session); [by apply accounted_editClient|].
      intros _. apply accounted_ret.
    - unfold create.
      apply (accounted_bind _ _ _ session); [by apply accounted_client|].
      intros newClient. apply (accounted_bind _ _ _ session);
        [by apply accounted_editClient|].
      intros _. apply accounted_ret. }
  intros needSyncNone. unfold checkOut.
  eapply accounted_bind; [apply accounted_setEnvironmentVariable|].
  intros _. apply (accounted_bind _ _ _ (<["P4CLIENT" := clientName env settings]> session)).
  { apply accounted_when. unfold purge.
    eapply accounted_bind; [by apply accounted_execP4_unit|].
    intros _. eapply accounted_bind; [apply accounted_rmRF|].
    intros _. apply accounted_mkdirP. }
  intros _. eapply accounted_bind; [by apply accounted_execP4_unit|].
  intros _. eapply accounted_bind; [by apply accounted_execP4_unit|].
  intros _. apply accounted_setOutput.
Qed.

(** X11. A run that completes has seen every one of its commands exit with
    code 0: the version query under the variables the run began with, the
    login and the commands that look for, read and write clients under
    [P4PORT] and [P4USER] set from the settings, and the purge, the clean
    and the sync under the resolved client name as [P4CLIENT] as well. The
    three variables are what the run leaves set. *)
Theorem completed_run_passed (env : Env) (settings : Settings) (s0 s' : State) :
  getSource env settings s0 = (inr (), s') →
  p4Env s' = <["P4CLIENT" := clientName env settings]>
               (<["P4USER" := authToken settings]>
                  (<["P4PORT" := repositoryName settings]> (p4Env s0)))
  ∧ ∃ t, trace s' = trace s0 ++ t
         ∧ passed env (variablesFor settings (clientName env settings) (p4Env s0))
                  (trace s0) t.
Proof.
  intros Hrun.
  destruct (getSource_accounted env settings (p4Env s0) s0 eq_refl) as (t & Ht & Hr).
  rewrite Hrun in Ht, Hr. simpl in Ht, Hr. destruct Hr as [Hvars Hpassed].
  split; [done|]. by exists t.
Qed.

(** X12. A run rejected with the exit code of a command stopped at that
    command: the code is not 0, the command is the last event recorded,
    and every command before it passed. *)
Theorem rejected_run_stopped (env : Env) (settings : Settings) (s0 s' : State)
    (code : Z) :
  getSource env settings s0 = (inl (ExecError code), s') →
  code ≠ 0
  ∧ ∃ pre args input out,
      trace s' = trace s0 ++ pre ++ [Exec args input]
      ∧ passed env (variablesFor settings (clientName env settings) (p4Env s0))
               (trace s0) pre
      ∧ p4_exe env (trace s0 ++ pre)
               (variablesFor settings (clientName env settings) (p4Env s0) args)
               args input = (code, out).
Proof.
  intros Hrun.
  destruct (getSource_accounted env settings (p4Env s0) s0 eq_refl) as (t & Ht & Hr).
  rewrite Hrun in Ht, Hr. simpl in Ht, Hr.
  destruct (Hr code eq_refl) as (Hcode & pre & args & input & out & -> & Hpre & Hexe).
  split; [done|]. by exists pre, args, input, out.
Qed.

(** The theorem on the run that creates the client of "runner-1". *)
Lemma completed_run_passed_witness :
  p4Env (getSource (sampleEnv "2023.2" None) settings (start Missing)).2
  = <["P4CLIENT" := "T_runner_1"]>
      (<["P4USER" := "bob"]> (<["P4PORT" := "ssl:perforce:1666"]> ∅))
  ∧ ∃ t, trace (getSource (sampleEnv "2023.2" None) settings (start Missing)).2 = t
         ∧ passed (sampleEnv "2023.2" None)
                  (variablesFor settings "T_runner_1" ∅) [] t.
Proof.
  destruct (getSource (sampleEnv "2023.2" None) settings (start Missing))
    as [[e|[]] s'] eqn:Hrun; [vm_compute in Hrun; discriminate|].
  destruct (completed_run_passed _ _ _ _ Hrun) as (Hvars & t & Ht & Hpassed).
  split; [done|]. by exists t.
Defined.

(** The theorem on a server that refuses the sync. *)
Lemma rejected_run_stopped_witness :
  ∃ pre input out,
    trace (getSource (refusing "sync" (sampleEnv "2023.2" None)) settings
                     (start Missing)).2
    = pre ++ [Exec ["sync"; "//T_runner_1/...@12345"] input]
    ∧ p4_exe (refusing "sync" (sampleEnv "2023.2" None)) pre
             (<["P4CLIENT" := "T_runner_1"]>
                (<["P4USER" := "bob"]> (<["P4PORT" := "ssl:perforce:1666"]> ∅)))
             ["sync"; "//T_runner_1/...@12345"] input = (1, out).
Proof.
  destruct (getSource (refusing "sync" (sampleEnv "2023.2" None)) settings
              (start Missing)) as [[[| | | |code|]|[]] s'] eqn:Hrun;
    try (vm_compute in Hrun; discriminate).
  destruct (rejected_run_stopped _ _ _ _ _ Hrun)
    as (_ & pre & args & input & out & Htrace & _ & Hexe).
  pose proof Hrun as Hvalues. vm_compute in Hvalues.
  injection Hvalues as <- <-. simpl in Htrace.
  assert (args = ["sync"; "//T_runner_1/...@12345"]) as ->.
  { apply (f_equal last) in Htrace. rewrite last_snoc in Htrace.
    vm_compute in Htrace. by injection Htrace as <- _. }
  exists pre, input, out. split; [done|]. exact Hexe.
Defined.

End PassFacts.
